(** * pyscBUS: the BUS file codec of [BUSlib.py]

    A shallow embedding of [BUSlib.py] (reading and writing uncompressed
    BUS files) and the properties of its nucleotide codec, header codec
    and record codec.

    Conventions of the embedding:
    - a Python [int] is a [Z]; [>>] and [&] are [Z.shiftr] and [Z.land],
      which agree with Python on negative numbers too;
    - a Python [str] is a [list ascii], a character being a code point in
      U+0000..U+00FF; [bytes] is a [list byte];
    - a raised exception is an explicit [Raise e] outcome; code that
      mutates an object or a file returns the new state next to its
      outcome, so that what was done before an exception stays visible;
    - the insertion-ordered [dict] of the container is an association
      list in insertion order. *)

From Stdlib Require Import String Ascii ZArith List Bool Lia.
From Stdlib Require Import Strings.Byte.
From Equations Require Import Equations.
From Equations.Prop Require Import Logic.
Import ListNotations.
Local Open Scope Z_scope.

(** ** Python values and exceptions *)

Definition str := list ascii.
Definition bytes := list byte.

(** The exception classes the module can raise. *)
Inductive exn : Type :=
| ValueError          (* int(): invalid literal *)
| struct_error        (* struct.pack / struct.unpack *)
| FileNotFoundError.  (* open(path, 'rb') on a missing file *)

Inductive outcome (A : Type) : Type :=
| Return (a : A)
| Raise (e : exn).
Arguments Return {A} a.
Arguments Raise {A} e.

Definition obind {A B} (m : outcome A) (k : A -> outcome B) : outcome B :=
  match m with
  | Return a => k a
  | Raise e => Raise e
  end.

(** An attribute that holds either a [str] or a [bytes] object
    ([text] and [format] do). *)
Inductive pyval : Type :=
| PStr (s : str)
| PBytes (b : bytes).

(** ** Builtins used by the module *)

(** [s[:stop]] *)
Definition slice_to {A} (s : list A) (stop : Z) : list A :=
  if stop <? 0
  then firstn (Z.to_nat (Z.of_nat (length s) + stop)) s
  else firstn (Z.to_nat stop) s.

(** [s.replace(old, new)] for a one-character [old]. *)
Fixpoint replace (old : ascii) (new : str) (s : str) : str :=
  match s with
  | [] => []
  | c :: s' =>
      if Ascii.eqb c old then new ++ replace old new s'
      else c :: replace old new s'
  end.

(** [int(s, 2)], after CPython's [PyLong_FromString]: surrounding white
    space, an optional sign, an optional [0b]/[0B] prefix (one underscore
    may follow it), then binary digits, single underscores allowed between
    two digits only; at least one digit. Anything else is a [ValueError].
    White space is tab, line feed, vertical tab, form feed, carriage
    return and space, and, of the code points above U+007F, U+0085 and
    U+00A0. *)
Definition is_space (c : ascii) : bool :=
  let n := nat_of_ascii c in
  ((9 <=? n) && (n <=? 13) || (n =? 32) || (n =? 133) || (n =? 160))%nat.

Fixpoint lstrip (s : str) : str :=
  match s with
  | c :: s' => if is_space c then lstrip s' else s
  | [] => []
  end.

Definition split_sign (s : str) : Z * str :=
  match s with
  | "+"%char :: s' => (1, s')
  | "-"%char :: s' => (-1, s')
  | _ => (1, s)
  end.

Definition skip_prefix (s : str) : str :=
  match s with
  | "0"%char :: "b"%char :: "_"%char :: s' => s'
  | "0"%char :: "B"%char :: "_"%char :: s' => s'
  | "0"%char :: "b"%char :: s' => s'
  | "0"%char :: "B"%char :: s' => s'
  | _ => s
  end.

(** The digit scan: [acc] is the value read so far, [prev_us] says that
    the previous character was an underscore, [nd] counts the digits.
    It stops at the first character that is neither a binary digit nor an
    underscore and returns the rest. *)
Fixpoint scan_digits (acc : Z) (prev_us : bool) (nd : nat) (s : str)
  : option (Z * nat * str) :=
  match s with
  | [] => if prev_us then None else Some (acc, nd, [])
  | c :: s' =>
      if Ascii.eqb c "0" then scan_digits (2 * acc) false (S nd) s'
      else if Ascii.eqb c "1" then scan_digits (2 * acc + 1) false (S nd) s'
      else if Ascii.eqb c "_" then
        if prev_us then None else scan_digits acc true nd s'
      else if prev_us then None else Some (acc, nd, s)
  end.

Definition int2 (s : str) : outcome Z :=
  let '(sign, s1) := split_sign (lstrip s) in
  match skip_prefix s1 with
  | "_"%char :: _ => Raise ValueError
  | s2 =>
      match scan_digits 0 false 0 s2 with
      | None => Raise ValueError
      | Some (v, nd, rest) =>
          match nd, lstrip rest with
          | S _, [] => Return (sign * v)
          | _, _ => Raise ValueError
          end
      end
  end.

(** ** The nucleotide codec *)

(** [stringToBinary(s, length)]; the third parameter [formating] is never
    read by the body and is left out. *)
Definition stringToBinary (s : str) (length : Z) : outcome Z :=
  let bs :=
    replace "T" ["1"; "1"]%char
      (replace "G" ["1"; "0"]%char
         (replace "C" ["0"; "1"]%char
            (replace "A" ["0"; "0"]%char (slice_to s length)))) in
  obind (int2 bs) (fun r => Return r).

(** The default [length = 32]. *)
Definition stringToBinary_default (s : str) : outcome Z := stringToBinary s 32.

(** [s[i] = c]; the only caller indexes within [range(len(s))]. *)
Fixpoint list_set {A} (l : list A) (i : nat) (v : A) : list A :=
  match l, i with
  | [], _ => []
  | _ :: l', O => v :: l'
  | a :: l', S i' => a :: list_set l' i' v
  end.

(** The body of the [for] loop of [binaryToString]: the loop state is
    the list [s] and the shift [sh]. *)
Definition binaryToString_body (x : Z) (st : list str * Z) (i : nat)
  : list str * Z :=
  let '(s, sh) := st in
  let c := ["N"%char] in
  let c :=
    if Z.land (Z.shiftr x (2 * sh)) 3 =? 0 then ["A"%char]
    else if Z.land (Z.shiftr x (2 * sh)) 3 =? 1 then ["C"%char]
    else if Z.land (Z.shiftr x (2 * sh)) 3 =? 2 then ["G"%char]
    else if Z.land (Z.shiftr x (2 * sh)) 3 =? 3 then ["T"%char]
    else c in
  let sh := sh - 1 in
  (list_set s i c, sh).

Definition binaryToString (x : Z) (length : Z) : str :=
  let s := repeat ["N"%char] (Z.to_nat length) in
  let sh := length - 1 in
  let '(s, _) :=
    fold_left (binaryToString_body x) (seq 0 (Z.to_nat length)) (s, sh) in
  concat s.

(** ** [struct]: little-endian packing of unsigned fields *)

Definition byte_of_Z (x : Z) : byte :=
  match Byte.of_N (Z.to_N (x mod 256)) with
  | Some b => b
  | None => x00
  end.

Definition Z_of_byte (b : byte) : Z := Z.of_N (Byte.to_N b).

Fixpoint le_bytes (w : nat) (x : Z) : bytes :=
  match w with
  | O => []
  | S w' => byte_of_Z x :: le_bytes w' (x / 256)
  end.

Fixpoint le_value (b : bytes) : Z :=
  match b with
  | [] => 0
  | c :: b' => Z_of_byte c + 256 * le_value b'
  end.

(** The format characters the module uses: [I] (unsigned, 4 bytes) and
    [Q] (unsigned, 8 bytes), always after [<] (little-endian, packed). *)
Inductive fmt_code : Type := fmt_I | fmt_Q.

Definition fmt_size (c : fmt_code) : nat :=
  match c with fmt_I => 4%nat | fmt_Q => 8%nat end.

Definition calcsize (fmt : list fmt_code) : nat :=
  fold_right (fun c n => (fmt_size c + n)%nat) 0%nat fmt.

Definition pack_uint (w : nat) (x : Z) : outcome bytes :=
  if (0 <=? x) && (x <? 2 ^ (8 * Z.of_nat w))
  then Return (le_bytes w x)
  else Raise struct_error.

(** [struct.pack('<' + fmt, *vs)] *)
Fixpoint struct_pack (fmt : list fmt_code) (vs : list Z) : outcome bytes :=
  match fmt, vs with
  | [], [] => Return []
  | c :: fmt', v :: vs' =>
      obind (pack_uint (fmt_size c) v) (fun b =>
      obind (struct_pack fmt' vs') (fun bs => Return (b ++ bs)))
  | _, _ => Raise struct_error
  end.

Fixpoint unpack_fields (fmt : list fmt_code) (b : bytes) : list Z :=
  match fmt with
  | [] => []
  | c :: fmt' =>
      le_value (firstn (fmt_size c) b)
        :: unpack_fields fmt' (skipn (fmt_size c) b)
  end.

(** [struct.unpack('<' + fmt, b)]: the buffer must have the exact size. *)
Definition struct_unpack (fmt : list fmt_code) (b : bytes) : outcome (list Z) :=
  if (List.length b =? calcsize fmt)%nat
  then Return (unpack_fields fmt b)
  else Raise struct_error.

(** [struct.unpack('<{}s'.format(n), b)[0]] *)
Definition struct_unpack_s (n : Z) (b : bytes) : outcome bytes :=
  if Z.of_nat (List.length b) =? n then Return b else Raise struct_error.

(** [s.encode()]: UTF-8 of the code points U+0000..U+00FF. *)
Definition utf8_char (c : ascii) : bytes :=
  let n := Z.of_N (N_of_ascii c) in
  if n <? 128 then [byte_of_Z n]
  else [byte_of_Z (Z.lor 192 (Z.shiftr n 6)); byte_of_Z (Z.lor 128 (Z.land n 63))].

Definition str_encode (s : str) : bytes := flat_map utf8_char s.

Fixpoint bytes_eqb (a b : bytes) : bool :=
  match a, b with
  | [], [] => true
  | x :: a', y :: b' => Byte.eqb x y && bytes_eqb a' b'
  | _, _ => false
  end.

Fixpoint str_eqb (a b : str) : bool :=
  match a, b with
  | [], [] => true
  | x :: a', y :: b' => Ascii.eqb x y && str_eqb a' b'
  | _, _ => false
  end.

(** [==] between [str] and [bytes] objects: objects of different types
    are never equal. *)
Definition pyval_eqb (a b : pyval) : bool :=
  match a, b with
  | PStr s, PStr t => str_eqb s t
  | PBytes s, PBytes t => bytes_eqb s t
  | _, _ => false
  end.

(** ** The container *)

Definition BUSFORMAT_VERSION : Z := 1.

(** One tuple [(umi, ec, count, flag)] of the record map. *)
Definition entry : Type := Z * Z * Z * Z.

(** [bcd]: barcode to the list of its tuples, keys in insertion order. *)
Definition dict : Type := list (Z * list entry).

Fixpoint dict_get (d : dict) (k : Z) : option (list entry) :=
  match d with
  | [] => None
  | (k', v) :: d' => if k' =? k then Some v else dict_get d' k
  end.

(** [d[k] = v]: an existing key keeps its place, a new one goes last. *)
Fixpoint dict_set (d : dict) (k : Z) (v : list entry) : dict :=
  match d with
  | [] => [(k, v)]
  | (k', v') :: d' =>
      if k' =? k then (k', v) :: d' else (k', v') :: dict_set d' k v
  end.

Record BUSFIle : Type := mkBUSFIle {
  text : pyval;
  bcd : dict;
  version : Z;
  bclen : Z;
  umilen : Z;
  textlen : Z;
  n_entries : Z;
  format : pyval;
  in_file_path : option str;
  out_file_path : option str
}.

(** [__init__] *)
Definition BUSFIle_init : BUSFIle :=
  {| text := PStr []; bcd := []; version := 0; bclen := 0; umilen := 0;
     textlen := 0; n_entries := 0; format := PStr [];
     in_file_path := None; out_file_path := None |}.

Definition set_text (v : pyval) (o : BUSFIle) : BUSFIle :=
  mkBUSFIle v (bcd o) (version o) (bclen o) (umilen o) (textlen o)
    (n_entries o) (format o) (in_file_path o) (out_file_path o).
Definition set_bcd (v : dict) (o : BUSFIle) : BUSFIle :=
  mkBUSFIle (text o) v (version o) (bclen o) (umilen o) (textlen o)
    (n_entries o) (format o) (in_file_path o) (out_file_path o).
Definition set_header (ver bl ul tl : Z) (o : BUSFIle) : BUSFIle :=
  mkBUSFIle (text o) (bcd o) ver bl ul tl
    (n_entries o) (format o) (in_file_path o) (out_file_path o).
Definition set_n_entries (v : Z) (o : BUSFIle) : BUSFIle :=
  mkBUSFIle (text o) (bcd o) (version o) (bclen o) (umilen o) (textlen o)
    v (format o) (in_file_path o) (out_file_path o).
Definition set_format (v : pyval) (o : BUSFIle) : BUSFIle :=
  mkBUSFIle (text o) (bcd o) (version o) (bclen o) (umilen o) (textlen o)
    (n_entries o) v (in_file_path o) (out_file_path o).
Definition set_in_file_path (v : str) (o : BUSFIle) : BUSFIle :=
  mkBUSFIle (text o) (bcd o) (version o) (bclen o) (umilen o) (textlen o)
    (n_entries o) (format o) (Some v) (out_file_path o).
Definition set_out_file_path (v : str) (o : BUSFIle) : BUSFIle :=
  mkBUSFIle (text o) (bcd o) (version o) (bclen o) (umilen o) (textlen o)
    (n_entries o) (format o) (in_file_path o) (Some v).

(** ** State and exceptions

    [M S A] is a computation over a mutable state [S] that returns an [A]
    or raises; the state reached is returned in both cases. *)

Definition M (S A : Type) : Type := S -> outcome A * S.

Definition ret {S A} (a : A) : M S A := fun s => (Return a, s).

Definition bind {S A B} (m : M S A) (k : A -> M S B) : M S B :=
  fun s =>
    match m s with
    | (Return a, s') => k a s'
    | (Raise e, s') => (Raise e, s')
    end.

Definition lift {S A} (o : outcome A) : M S A := fun s => (o, s).
Definition gets {S A} (f : S -> A) : M S A := fun s => (Return (f s), s).
Definition modify {S} (f : S -> S) : M S unit := fun s => (Return tt, f s).

Declare Scope monad_scope.
Delimit Scope monad_scope with monad.
Notation "x <- m ;; k" := (bind m (fun x => k))
  (at level 61, m at next level, right associativity) : monad_scope.
Notation "m ;; k" := (bind m (fun _ => k))
  (at level 61, right associativity) : monad_scope.
Local Open Scope monad_scope.

(** [for x in l: body(x)] *)
Fixpoint for_each {S A} (l : list A) (body : A -> M S unit) : M S unit :=
  match l with
  | [] => ret tt
  | x :: l' => body x ;; for_each l' body
  end.

(** What the reader prints or warns about. *)
Inductive event : Type :=
| warn_version_differs
| print_not_implemented (fmt : pyval).

(** The state of a [read]: the instance being filled, the unread rest of
    the open file [inf], and the messages emitted so far. *)
Record reader : Type := mkReader {
  self : BUSFIle;
  inf : bytes;
  emitted : list event
}.

Definition on_self (f : BUSFIle -> BUSFIle) : M reader unit :=
  modify (fun st => mkReader (f (self st)) (inf st) (emitted st)).

Definition emit (e : event) : M reader unit :=
  modify (fun st => mkReader (self st) (inf st) (emitted st ++ [e])).

(** [inf.read(n)] for [n >= 0]: at most [n] bytes, fewer at the end of the
    file only. *)
Definition inf_read (n : Z) : M reader bytes :=
  fun st =>
    (Return (firstn (Z.to_nat n) (inf st)),
     mkReader (self st) (skipn (Z.to_nat n) (inf st)) (emitted st)).

(** [b"BUS\x00"] *)
Definition magic_BUS : bytes := [x42; x55; x53; x00].

(** ['BUS'] *)
Definition str_BUS : str := ["B"; "U"; "S"]%char.

Definition parseHeader : M reader unit :=
  b <- inf_read 4 ;;
  magic <- lift (struct_unpack_s 4 b) ;;
  if bytes_eqb magic magic_BUS then
    on_self (set_format (PStr str_BUS)) ;;
    b <- inf_read 16 ;;
    fields <- lift (struct_unpack [fmt_I; fmt_I; fmt_I; fmt_I] b) ;;
    match fields with
    | [ver; bl; ul; tl] =>
        on_self (set_header ver bl ul tl) ;;
        v <- gets (fun st => version (self st)) ;;
        (if negb (v =? BUSFORMAT_VERSION) then emit warn_version_differs
         else ret tt) ;;
        tl <- gets (fun st => textlen (self st)) ;;
        b <- inf_read tl ;;
        txt <- lift (struct_unpack_s tl b) ;;
        on_self (set_text (PBytes txt))
    | _ => lift (Raise ValueError)
    end
  else
    on_self (set_format (PBytes magic)).

(** [bc, umi, ec, num, flag, pad = struct.unpack('<QQIIII', b)] *)
Definition unpack_record (b : bytes) : outcome (Z * entry) :=
  obind (struct_unpack [fmt_Q; fmt_Q; fmt_I; fmt_I; fmt_I; fmt_I] b)
    (fun fields =>
       match fields with
       | [bc; umi; ec; num; flag; _] => Return (bc, (umi, ec, num, flag))
       | _ => Raise ValueError
       end).

(** The [try: self.bcd[bc].append(t) except KeyError: self.bcd[bc] = [t]]. *)
Definition bcd_append (bc : Z) (t : entry) (o : BUSFIle) : BUSFIle :=
  match dict_get (bcd o) bc with
  | Some l => set_bcd (dict_set (bcd o) bc (l ++ [t])) o
  | None => set_bcd (dict_set (bcd o) bc [t]) o
  end.

Definition incr_n_entries : M reader unit :=
  on_self (fun o => set_n_entries (n_entries o + 1) o).

(** One turn of the [while b:] loop of [parseBUS], for a non-empty [b];
    it returns the next [b]. *)
Definition parseBUS_iter (b : bytes) : M reader bytes :=
  r <- lift (unpack_record b) ;;
  b' <- inf_read 32 ;;
  incr_n_entries ;;
  on_self (bcd_append (fst r) (snd r)) ;;
  ret b'.

Equations? parseBUS_loop (b : bytes) (st : reader) : outcome unit * reader
  by wf (List.length b + List.length (inf st))%nat lt :=
  parseBUS_loop [] st := (Return tt, st);
  parseBUS_loop (c :: b0) st with inspect (parseBUS_iter (c :: b0) st) := {
    | exist _ (Return b', st') _ => parseBUS_loop b' st';
    | exist _ (Raise e, st') _ => (Raise e, st') }.
Proof.
  assert (inf st' = skipn 32 (inf st) /\ b' = firstn 32 (inf st)) as [-> ->].
  { revert e. unfold parseBUS_iter, bind, lift.
    destruct (unpack_record (c :: b0)); [|discriminate].
    cbn. intros H. injection H as <- <-. split; reflexivity. }
  pose proof (firstn_skipn 32 (inf st)) as H.
  apply (f_equal (@List.length _)) in H. rewrite length_app in H.
  cbn [List.length]. lia.
Qed.

Definition parseBUS : M reader unit :=
  b <- inf_read 32 ;;
  incr_n_entries ;;
  parseBUS_loop b.

(** The file system: the content of each existing file. *)
Definition fs : Type := str -> option bytes.

Definition fs_put (fsys : fs) (path : str) (content : bytes) : fs :=
  fun p => if str_eqb p path then Some content else fsys p.

(** [BUSFIle.read(in_file)]: the instance returned (or the exception) and
    what was printed or warned. *)
Definition read (in_file : str) (fsys : fs) : outcome BUSFIle * list event :=
  let instance := set_in_file_path in_file BUSFIle_init in
  match fsys in_file with
  | None => (Raise FileNotFoundError, [])
  | Some content =>
      let '(r, st) :=
        (parseHeader ;;
         f <- gets (fun st => format (self st)) ;;
         if pyval_eqb f (PStr str_BUS) then parseBUS
         else emit (print_not_implemented f))
          (mkReader instance content []) in
      (obind r (fun _ => Return (self st)), emitted st)
  end.

(** [outf.write(b)]: the state is what has been written to the file. *)
Definition outf_write (b : bytes) : M bytes unit :=
  modify (fun written => written ++ b).

Definition writeHeader (o : BUSFIle) : M bytes unit :=
  let text_bytes :=
    match text o with
    | PStr s => str_encode s
    | PBytes b => b
    end in
  outf_write magic_BUS ;;
  h <- lift (struct_pack [fmt_I; fmt_I; fmt_I; fmt_I]
               [version o; bclen o; umilen o;
                Z.of_nat (List.length text_bytes)]) ;;
  outf_write h ;;
  outf_write text_bytes.

(** [not sort_key] holds for [None] and for the empty string. *)
Definition truthy (sort_key : option str) : bool :=
  match sort_key with
  | Some (_ :: _) => true
  | _ => false
  end.

(** The body of the inner loop of [writeBUS]: pack one tuple of barcode
    [bc] and write the block. *)
Definition writeBUS_block (bc : Z) (tup : entry) : M bytes unit :=
  let '(t0, t1, t2, t3) := tup in
  block <- lift (struct_pack
                   [fmt_Q; fmt_Q; fmt_I; fmt_I; fmt_I; fmt_I]
                   [bc; t0; t1; t2; t3; 0]) ;;
  outf_write block.

Definition writeBUS (o : BUSFIle) (sort_key : option str) : M bytes unit :=
  if negb (truthy sort_key) then
    for_each (bcd o) (fun item =>
      let '(bc, value) := item in
      for_each value (writeBUS_block bc))
  else ret tt.

(** [self.write(outf, formating)]: [open(outf, 'wb')] creates or empties
    the file; what was written before an exception stays in it. *)
Definition write (o : BUSFIle) (outf : str) (formating : str) (fsys : fs)
  : outcome unit * (BUSFIle * fs) :=
  let o := set_out_file_path outf o in
  let '(r, written) :=
    (writeHeader o ;;
     if str_eqb formating str_BUS then writeBUS o None else ret tt) [] in
  (r, (o, fs_put fsys outf written)).

(** ** Specification functions of the nucleotide codec *)

(** The alphabet. *)
Definition is_acgt (c : ascii) : bool :=
  Ascii.eqb c "A" || Ascii.eqb c "C" || Ascii.eqb c "G" || Ascii.eqb c "T".

(** The 2-bit code of a symbol and the symbol of a code. *)
Definition code_of (c : ascii) : Z :=
  if Ascii.eqb c "A" then 0
  else if Ascii.eqb c "C" then 1
  else if Ascii.eqb c "G" then 2
  else 3.

Definition symbol_of (d : Z) : ascii :=
  if d =? 0 then "A"%char
  else if d =? 1 then "C"%char
  else if d =? 2 then "G"%char
  else "T"%char.

(** The pair of bits number [sh] of [x]. *)
Definition pair_at (x sh : Z) : Z := Z.land (Z.shiftr x (2 * sh)) 3.

(** The [n] symbols of [x], most significant pair first. *)
Fixpoint symbols (x : Z) (n : nat) : str :=
  match n with
  | O => []
  | S n' => symbol_of (pair_at x (Z.of_nat n')) :: symbols x n'
  end.

(** The value of a string of symbols, most significant symbol first. *)
Fixpoint value_of (s : str) : Z :=
  match s with
  | [] => 0
  | c :: s' => code_of c * 4 ^ Z.of_nat (List.length s') + value_of s'
  end.

(** The value of a string of binary digits. *)
Definition bit_of (c : ascii) : Z := if Ascii.eqb c "1" then 1 else 0.

Definition is_bit (c : ascii) : bool := Ascii.eqb c "0" || Ascii.eqb c "1".

Fixpoint bin_value (s : str) : Z :=
  match s with
  | [] => 0
  | c :: s' => bit_of c * 2 ^ Z.of_nat (List.length s') + bin_value s'
  end.

(** The two binary digits that the four [replace] calls put for a symbol. *)
Definition bits_of (c : ascii) : str :=
  if Ascii.eqb c "A" then ["0"; "0"]%char
  else if Ascii.eqb c "C" then ["0"; "1"]%char
  else if Ascii.eqb c "G" then ["1"; "0"]%char
  else ["1"; "1"]%char.

(** [decode(encode(s, n), n)] as one computation. *)
Definition decode_encode (s : str) (n : Z) : outcome str :=
  obind (stringToBinary s n) (fun x => Return (binaryToString x n)).

(** [encode(decode(x, n), n)] *)
Definition encode_decode (x : Z) (n : Z) : outcome Z :=
  stringToBinary (binaryToString x n) n.

(** ** Specification functions of the container codec *)

Definition u32 (x : Z) : bool := (0 <=? x) && (x <? 2 ^ 32).
Definition u64 (x : Z) : bool := (0 <=? x) && (x <? 2 ^ 64).

(** A record of the body: a barcode and its tuple. *)
Definition record : Type := Z * entry.

(** The 32 bytes of a record, the padding field being 0. *)
Definition encode_record (r : record) : bytes :=
  let '(bc, (umi, ec, num, flag)) := r in
  le_bytes 8 bc ++ le_bytes 8 umi ++ le_bytes 4 ec ++ le_bytes 4 num
    ++ le_bytes 4 flag ++ le_bytes 4 0.

(** The record held by a 32-byte block. *)
Definition decode_block (b : bytes) : record :=
  (le_value (firstn 8 b),
   (le_value (firstn 8 (skipn 8 b)),
    le_value (firstn 4 (skipn 16 b)),
    le_value (firstn 4 (skipn 20 b)),
    le_value (firstn 4 (skipn 24 b)))).

(** The records of the first [k] 32-byte blocks of a stream. *)
Fixpoint records_of (k : nat) (s : bytes) : list record :=
  match k with
  | O => []
  | S k' => decode_block (firstn 32 s) :: records_of k' (skipn 32 s)
  end.

(** The tuples of barcode [bc] in a list of records, in the order of the
    list. *)
Definition tuples_of (bc : Z) (rs : list record) : list entry :=
  map snd (filter (fun r => fst r =? bc) rs).

(** The records of a map, in the order [writeBUS] visits them. *)
Definition flatten (d : dict) : list record :=
  flat_map (fun item => map (fun t => (fst item, t)) (snd item)) d.

(** What one turn of the [parseBUS] loop does to the instance. *)
Definition add_record (o : BUSFIle) (r : record) : BUSFIle :=
  bcd_append (fst r) (snd r) (set_n_entries (n_entries o + 1) o).

Definition dict_append (d : dict) (r : record) : dict :=
  match dict_get d (fst r) with
  | Some l => dict_set d (fst r) (l ++ [snd r])
  | None => dict_set d (fst r) [snd r]
  end.

(** The payload [writeHeader] writes for the [text] attribute. *)
Definition text_bytes_of (o : BUSFIle) : bytes :=
  match text o with
  | PStr s => str_encode s
  | PBytes b => b
  end.

(** The header fields fit their unsigned 32-bit slots. *)
Definition header_ok (o : BUSFIle) : bool :=
  u32 (version o) && u32 (bclen o) && u32 (umilen o)
  && u32 (Z.of_nat (List.length (text_bytes_of o))).

Definition header_bytes (o : BUSFIle) : bytes :=
  magic_BUS ++ le_bytes 4 (version o) ++ le_bytes 4 (bclen o)
    ++ le_bytes 4 (umilen o)
    ++ le_bytes 4 (Z.of_nat (List.length (text_bytes_of o)))
    ++ text_bytes_of o.

Definition entry_ok (t : entry) : bool :=
  let '(umi, ec, num, flag) := t in
  u64 umi && u32 ec && u32 num && u32 flag.

Definition record_ok (r : record) : bool := u64 (fst r) && entry_ok (snd r).

(** A [dict] has each key once. *)
Fixpoint keys_distinct (d : dict) : bool :=
  match d with
  | [] => true
  | (k, _) :: d' => negb (existsb (Z.eqb k) (map fst d')) && keys_distinct d'
  end.

(** Every barcode has at least one tuple, and all fields fit their
    slots. *)
Definition item_ok (item : Z * list entry) : bool :=
  match snd item with
  | [] => false
  | _ :: _ => u64 (fst item) && forallb entry_ok (snd item)
  end.

Definition bcd_ok (d : dict) : bool := keys_distinct d && forallb item_ok d.

(** A file system with no file. *)
Definition no_files : fs := fun _ => None.

(** [c.write(path)] followed by [BUSFIle.read(path)]: the instance read
    back, or the first exception. *)
Definition read_back (c : BUSFIle) (path : str) (fsys : fs) : outcome BUSFIle :=
  let w := write c path str_BUS fsys in
  obind (fst w) (fun _ => fst (read path (snd (snd w)))).

(** Examples. *)
Definition example_path : str := list_ascii_of_string "out.bus".

Definition example_header : BUSFIle :=
  set_header 1 16 12 0 (set_text (PBytes []) BUSFIle_init).

Definition example_container : BUSFIle :=
  set_bcd [(7, [(1, 2, 3, 4); (8, 8, 8, 8)]); (5, [(9, 2, 1, 0)])]
    example_header.

(** A barcode with an empty sequence. *)
Definition example_empty_sequence : BUSFIle :=
  set_bcd [(5, [])] example_header.

Definition example_body : bytes :=
  encode_record (7, (1, 2, 3, 4)) ++ encode_record (5, (9, 2, 1, 0))
    ++ encode_record (7, (8, 8, 8, 8)).

(** ** Specification functions for further properties *)

(** A character that neither the alphabet nor the grammar of [int(s, 2)]
    knows: not a symbol, not white space, not a binary digit, an
    underscore, a sign or the [b] of a prefix. *)
Definition is_foreign (c : ascii) : bool :=
  negb (is_acgt c || is_space c || is_bit c || Ascii.eqb c "_"
        || Ascii.eqb c "+" || Ascii.eqb c "-" || Ascii.eqb c "b"
        || Ascii.eqb c "B").

(** The keys [ks] added to the keys [seen], each at its first
    occurrence. *)
Definition first_seen (seen ks : list Z) : list Z :=
  fold_left (fun acc k => if existsb (Z.eqb k) acc then acc else acc ++ [k])
    ks seen.

(** The longest prefix of records that fit their slots. *)
Fixpoint packable_prefix (rs : list record) : list record :=
  match rs with
  | [] => []
  | r :: rs' => if record_ok r then r :: packable_prefix rs' else []
  end.

(** A BUS file of one record and the container [read] returns for it. *)
Definition example_file : bytes :=
  magic_BUS ++ le_bytes 4 1 ++ le_bytes 4 16 ++ le_bytes 4 12 ++ le_bytes 4 0
    ++ encode_record (5, (9, 2, 1, 0)).

Definition example_read : BUSFIle :=
  mkBUSFIle (PBytes []) [(5, [(9, 2, 1, 0)])] 1 16 12 0 2 (PStr str_BUS)
    (Some example_path) None.

(** * Properties *)

(** ** The nucleotide codec *)

Lemma pair_at_mod4 x sh : 0 <= sh -> pair_at x sh = (x / 4 ^ sh) mod 4.
Proof.
  intros Hsh. unfold pair_at.
  change 3 with (Z.ones 2). rewrite Z.land_ones by lia.
  rewrite Z.shiftr_div_pow2 by lia.
  rewrite Z.pow_mul_r by lia. reflexivity.
Qed.

Lemma pair_at_range x sh : 0 <= pair_at x sh < 4.
Proof.
  unfold pair_at. change 3 with (Z.ones 2). rewrite Z.land_ones by lia.
  apply Z.mod_pos_bound. reflexivity.
Qed.

Lemma binaryToString_body_eq x s sh i :
  binaryToString_body x (s, sh) i =
  (list_set s i [symbol_of (pair_at x sh)], sh - 1).
Proof.
  unfold binaryToString_body, symbol_of. fold (pair_at x sh).
  pose proof (pair_at_range x sh) as H.
  destruct (pair_at x sh =? 0) eqn:E0; [reflexivity|].
  destruct (pair_at x sh =? 1) eqn:E1; [reflexivity|].
  destruct (pair_at x sh =? 2) eqn:E2; [reflexivity|].
  destruct (pair_at x sh =? 3) eqn:E3; [reflexivity|].
  lia.
Qed.

Lemma list_set_middle {A} (pre : list A) a s v :
  list_set (pre ++ a :: s) (List.length pre) v = pre ++ v :: s.
Proof. induction pre as [|p pre IH]; cbn; [reflexivity | now rewrite IH]. Qed.

Lemma binaryToString_loop x n : forall pre s,
  List.length s = n ->
  fold_left (binaryToString_body x) (seq (List.length pre) n)
    (pre ++ s, Z.of_nat n - 1) =
  (pre ++ map (fun c => [c]) (symbols x n), -1).
Proof.
  induction n as [|n IH]; intros pre s Hs.
  - destruct s; [|discriminate]. reflexivity.
  - destruct s as [|a s]; [discriminate|]. injection Hs as Hs.
    cbn [seq fold_left symbols map].
    rewrite binaryToString_body_eq, list_set_middle.
    replace (Z.of_nat (S n) - 1) with (Z.of_nat n) by lia.
    specialize (IH (pre ++ [[symbol_of (pair_at x (Z.of_nat n))]]) s Hs).
    rewrite length_app, Nat.add_1_r, <- app_assoc in IH. cbn [app] in IH.
    rewrite IH, <- app_assoc. reflexivity.
Qed.

Lemma concat_singletons {A} (l : list A) : concat (map (fun c => [c]) l) = l.
Proof. induction l as [|a l IH]; cbn; [reflexivity | now rewrite IH]. Qed.

(** [binaryToString] computes [symbols]. *)
Lemma binaryToString_symbols x n :
  binaryToString x n = symbols x (Z.to_nat n).
Proof.
  unfold binaryToString. cbv zeta.
  destruct (Z.leb_spec 0 n) as [Hn|Hn].
  - pose proof (binaryToString_loop x (Z.to_nat n) []
                  (repeat ["N"%char] (Z.to_nat n)) (repeat_length _ _)) as H.
    cbn [List.length app] in H.
    replace (Z.of_nat (Z.to_nat n) - 1) with (n - 1) in H by lia.
    unfold str in *. rewrite H. apply concat_singletons.
  - replace (Z.to_nat n) with O by lia. reflexivity.
Qed.

Lemma symbols_length x n : List.length (symbols x n) = n.
Proof. induction n as [|n IH]; cbn; [reflexivity | now rewrite IH]. Qed.

Lemma symbol_of_acgt d : is_acgt (symbol_of d) = true.
Proof.
  unfold symbol_of.
  destruct (d =? 0); [reflexivity|].
  destruct (d =? 1); [reflexivity|].
  destruct (d =? 2); reflexivity.
Qed.

Lemma symbols_acgt x n : forallb is_acgt (symbols x n) = true.
Proof.
  induction n as [|n IH]; cbn [symbols forallb]; [reflexivity|].
  now rewrite symbol_of_acgt, IH.
Qed.

Lemma pair_at_mod x N sh :
  0 <= sh < N -> pair_at (x mod 4 ^ N) sh = pair_at x sh.
Proof.
  intros H. unfold pair_at. apply Z.bits_inj'. intros i Hi.
  rewrite !Z.land_spec, !Z.shiftr_spec by lia.
  destruct (Z.ltb_spec i 2) as [Hlt|Hge].
  - replace (4 ^ N) with (2 ^ (2 * N)) by (rewrite Z.pow_mul_r by lia; reflexivity).
    rewrite Z.mod_pow2_bits_low by lia. reflexivity.
  - replace (Z.testbit 3 i) with false.
    + now rewrite !andb_false_r.
    + symmetry. change 3 with (Z.ones 2). apply Z.ones_spec_high. lia.
Qed.

Lemma symbols_mod x N n :
  (n <= N)%nat -> symbols (x mod 4 ^ Z.of_nat N) n = symbols x n.
Proof.
  induction n as [|n IH]; intros H; cbn [symbols]; [reflexivity|].
  rewrite pair_at_mod by lia. rewrite IH by lia. reflexivity.
Qed.

(** C10: [binaryToString] looks at the low [2n] bits of [x] only, and
    its result has exactly [n] characters, all of them in {A,C,G,T}:
    for every integer [x] and length [n >= 0],
    [binaryToString(x, n) == binaryToString(x mod 4^n, n)]. *)
Theorem binaryToString_low_bits (x n : Z) :
  0 <= n ->
  binaryToString x n = binaryToString (x mod 4 ^ n) n /\
  Z.of_nat (List.length (binaryToString x n)) = n /\
  forallb is_acgt (binaryToString x n) = true.
Proof.
  intros Hn. rewrite !binaryToString_symbols. repeat split.
  - rewrite <- (Z2Nat.id n) at 2 by assumption.
    symmetry. apply symbols_mod. reflexivity.
  - rewrite symbols_length. lia.
  - apply symbols_acgt.
Qed.

Lemma binaryToString_low_bits_witness :
  0 <= 3 /\
  binaryToString (-5) 3 = binaryToString ((-5) mod 4 ^ 3) 3 /\
  Z.of_nat (List.length (binaryToString (-5) 3)) = 3 /\
  forallb is_acgt (binaryToString (-5) 3) = true.
Proof. split; [lia | apply (binaryToString_low_bits (-5) 3); lia]. Defined.

(** *** Encoding *)

Lemma is_acgt_cases c :
  is_acgt c = true ->
  c = "A"%char \/ c = "C"%char \/ c = "G"%char \/ c = "T"%char.
Proof.
  unfold is_acgt. rewrite !orb_true_iff, !Ascii.eqb_eq. tauto.
Qed.

Lemma is_bit_cases c : is_bit c = true -> c = "0"%char \/ c = "1"%char.
Proof. unfold is_bit. rewrite orb_true_iff, !Ascii.eqb_eq. tauto. Qed.

Ltac acgt_cases H :=
  apply is_acgt_cases in H; destruct H as [H|[H|[H|H]]]; subst.

(** On a string of symbols, the four successive [replace] calls put the
    two digits of each symbol in its place. *)
Lemma replace_symbols t :
  forallb is_acgt t = true ->
  replace "T" ["1"; "1"]%char
    (replace "G" ["1"; "0"]%char
       (replace "C" ["0"; "1"]%char
          (replace "A" ["0"; "0"]%char t))) = flat_map bits_of t.
Proof.
  induction t as [|c t IH]; [reflexivity|].
  cbn [forallb]. rewrite andb_true_iff. intros [Hc Ht].
  specialize (IH Ht). cbn [flat_map]. rewrite <- IH.
  acgt_cases Hc; reflexivity.
Qed.

Lemma flat_map_bits_length t :
  List.length (flat_map bits_of t) = (2 * List.length t)%nat.
Proof.
  induction t as [|c t IH]; [reflexivity|].
  cbn [flat_map]. rewrite length_app, IH.
  assert (List.length (bits_of c) = 2%nat) as ->; [|cbn [List.length]; lia].
  unfold bits_of.
  destruct (Ascii.eqb c "A"); [reflexivity|].
  destruct (Ascii.eqb c "C"); [reflexivity|].
  destruct (Ascii.eqb c "G"); reflexivity.
Qed.

Lemma flat_map_bits_is_bit t : forallb is_bit (flat_map bits_of t) = true.
Proof.
  induction t as [|c t IH]; [reflexivity|].
  cbn [flat_map]. rewrite forallb_app, IH, andb_true_r.
  unfold bits_of.
  destruct (Ascii.eqb c "A"); [reflexivity|].
  destruct (Ascii.eqb c "C"); [reflexivity|].
  destruct (Ascii.eqb c "G"); reflexivity.
Qed.

Lemma pow4_pow2 k : 0 <= k -> 4 ^ k = 2 ^ (2 * k).
Proof. intros. rewrite Z.pow_mul_r by lia. reflexivity. Qed.

Lemma bin_value_bits t :
  forallb is_acgt t = true -> bin_value (flat_map bits_of t) = value_of t.
Proof.
  induction t as [|c t IH]; [reflexivity|].
  cbn [forallb]. rewrite andb_true_iff. intros [Hc Ht].
  specialize (IH Ht). cbn [flat_map value_of].
  pose proof (flat_map_bits_length t) as HL.
  rewrite pow4_pow2 by lia. rewrite <- IH.
  assert (forall b1 b0 : ascii,
             bin_value (b1 :: b0 :: flat_map bits_of t) =
             (2 * bit_of b1 + bit_of b0) * 2 ^ (2 * Z.of_nat (List.length t))
             + bin_value (flat_map bits_of t)) as E.
  { intros b1 b0. cbn [bin_value List.length]. rewrite HL.
    replace (Z.of_nat (S (2 * List.length t)))
      with (1 + 2 * Z.of_nat (List.length t)) by lia.
    replace (Z.of_nat (2 * List.length t))
      with (2 * Z.of_nat (List.length t)) by lia.
    rewrite Z.pow_add_r by lia. change (2 ^ 1) with 2. ring. }
  acgt_cases Hc; cbn [bits_of Ascii.eqb app]; apply E.
Qed.

Lemma scan_digits_bits l : forall acc nd,
  forallb is_bit l = true ->
  scan_digits acc false nd l =
  Some (acc * 2 ^ Z.of_nat (List.length l) + bin_value l,
        (nd + List.length l)%nat, []).
Proof.
  induction l as [|c l IH]; intros acc nd H.
  - cbn. rewrite Z.mul_1_r, Z.add_0_r, Nat.add_0_r. reflexivity.
  - cbn [forallb] in H. apply andb_true_iff in H as [Hc Hl].
    cbn [bin_value List.length].
    replace (Z.of_nat (S (List.length l)))
      with (1 + Z.of_nat (List.length l)) by lia.
    rewrite Z.pow_add_r by lia. change (2 ^ 1) with 2.
    replace (nd + S (List.length l))%nat with (S nd + List.length l)%nat by lia.
    apply is_bit_cases in Hc as [->| ->];
      cbn -[Z.pow Z.mul Z.add Z.of_nat Nat.add];
      rewrite (IH _ _ Hl); do 3 f_equal; ring.
Qed.

(** [int(bs, 2)] on a non-empty string of binary digits. *)
Lemma int2_bits l :
  l <> [] -> forallb is_bit l = true -> int2 l = Return (bin_value l).
Proof.
  intros Hne H. destruct l as [|c1 l]; [congruence|].
  pose proof (scan_digits_bits (c1 :: l) 0 0%nat H) as Hscan.
  cbn [forallb] in H. apply andb_true_iff in H as [H1 Hl].
  assert (skip_prefix (c1 :: l) = c1 :: l) as Hskip.
  { destruct l as [|c2 l']; [apply is_bit_cases in H1 as [->| ->]; reflexivity|].
    cbn [forallb] in Hl. apply andb_true_iff in Hl as [H2 _].
    apply is_bit_cases in H1 as [->| ->];
      apply is_bit_cases in H2 as [->| ->]; reflexivity. }
  unfold int2.
  apply is_bit_cases in H1 as [->| ->].
  - change (lstrip ("0"%char :: l)) with ("0"%char :: l).
    change (split_sign ("0"%char :: l)) with (1, "0"%char :: l).
    cbv beta iota. rewrite Hskip. cbv beta iota. rewrite Hscan.
    cbn [Nat.add List.length lstrip]. f_equal. lia.
  - change (lstrip ("1"%char :: l)) with ("1"%char :: l).
    change (split_sign ("1"%char :: l)) with (1, "1"%char :: l).
    cbv beta iota. rewrite Hskip. cbv beta iota. rewrite Hscan.
    cbn [Nat.add List.length lstrip]. f_equal. lia.
Qed.

Lemma slice_to_firstn {A} (s : list A) n :
  0 <= n -> slice_to s n = firstn (Z.to_nat n) s.
Proof.
  intros H. unfold slice_to.
  destruct (Z.ltb_spec n 0); [lia | reflexivity].
Qed.

Lemma slice_to_all {A} (s : list A) n :
  Z.of_nat (List.length s) <= n -> slice_to s n = s.
Proof.
  intros H. rewrite slice_to_firstn by lia. apply firstn_all2. lia.
Qed.

Lemma forallb_firstn {A} (f : A -> bool) n l :
  forallb f l = true -> forallb f (firstn n l) = true.
Proof.
  revert l. induction n as [|n IH]; intros [|a l]; cbn; try reflexivity.
  rewrite !andb_true_iff. intros [-> H]. split; [reflexivity | now apply IH].
Qed.

(** [stringToBinary] on a non-empty slice of symbols returns its value. *)
Lemma stringToBinary_value s n :
  slice_to s n <> [] ->
  forallb is_acgt (slice_to s n) = true ->
  stringToBinary s n = Return (value_of (slice_to s n)).
Proof.
  intros Hne Hs. unfold stringToBinary.
  rewrite replace_symbols by assumption.
  rewrite int2_bits.
  - cbn [obind]. now rewrite bin_value_bits.
  - destruct (slice_to s n) as [|c t]; [congruence|].
    cbn [flat_map]. unfold bits_of.
    destruct (Ascii.eqb c "A"); [discriminate|].
    destruct (Ascii.eqb c "C"); [discriminate|].
    destruct (Ascii.eqb c "G"); discriminate.
  - apply flat_map_bits_is_bit.
Qed.

(** [int('', 2)] raises: an empty slice cannot be encoded. *)
Lemma stringToBinary_empty s n :
  slice_to s n = [] -> stringToBinary s n = Raise ValueError.
Proof. intros H. unfold stringToBinary. rewrite H. reflexivity. Qed.

Lemma code_of_range c : 0 <= code_of c < 4.
Proof.
  unfold code_of.
  destruct (Ascii.eqb c "A"); [lia|].
  destruct (Ascii.eqb c "C"); [lia|].
  destruct (Ascii.eqb c "G"); lia.
Qed.

Lemma value_of_range s : 0 <= value_of s < 4 ^ Z.of_nat (List.length s).
Proof.
  induction s as [|c s IH]; [cbn; lia|].
  cbn [value_of List.length].
  replace (Z.of_nat (S (List.length s)))
    with (1 + Z.of_nat (List.length s)) by lia.
  rewrite Z.pow_add_r by lia. change (4 ^ 1) with 4.
  pose proof (code_of_range c). nia.
Qed.

Lemma symbol_of_code_of c : is_acgt c = true -> symbol_of (code_of c) = c.
Proof. intros H. acgt_cases H; reflexivity. Qed.

Lemma code_of_symbol_of d : 0 <= d < 4 -> code_of (symbol_of d) = d.
Proof.
  intros H. unfold symbol_of.
  destruct (Z.eqb_spec d 0); [subst; reflexivity|].
  destruct (Z.eqb_spec d 1); [subst; reflexivity|].
  destruct (Z.eqb_spec d 2); [subst; reflexivity|].
  replace d with 3 by lia. reflexivity.
Qed.

(** Decoding the value of a string of symbols gives the string back. *)
Lemma symbols_value_of t :
  forallb is_acgt t = true -> symbols (value_of t) (List.length t) = t.
Proof.
  induction t as [|c t IH]; [reflexivity|].
  cbn [forallb]. rewrite andb_true_iff. intros [Hc Ht].
  cbn [value_of List.length symbols].
  pose proof (value_of_range t) as Hv. pose proof (code_of_range c) as Hc4.
  set (k := Z.of_nat (List.length t)) in *.
  assert (0 < 4 ^ k) by (apply Z.pow_pos_nonneg; lia).
  f_equal.
  - rewrite pair_at_mod4 by lia.
    rewrite Z.div_add_l by lia. rewrite (Z.div_small (value_of t)) by lia.
    rewrite Z.add_0_r, Z.mod_small by lia. now apply symbol_of_code_of.
  - rewrite <- (symbols_mod _ (List.length t)) by lia. fold k.
    rewrite Z.add_comm, Z.mod_add by lia.
    rewrite Z.mod_small by lia. now apply IH.
Qed.

(** Encoding the [n] symbols of [x] gives [x] back, up to [4^n]. *)
Lemma value_of_symbols n x : value_of (symbols x n) = x mod 4 ^ Z.of_nat n.
Proof.
  induction n as [|n IH]; [cbn; now rewrite Z.mod_1_r|].
  cbn [symbols value_of]. rewrite symbols_length, IH.
  rewrite code_of_symbol_of by apply pair_at_range.
  rewrite pair_at_mod4 by lia.
  replace (Z.of_nat (S n)) with (Z.of_nat n + 1) by lia.
  rewrite Z.pow_add_r by lia. change (4 ^ 1) with 4.
  assert (0 < 4 ^ Z.of_nat n) by (apply Z.pow_pos_nonneg; lia).
  rewrite (Z.rem_mul_r x (4 ^ Z.of_nat n) 4) by lia. ring.
Qed.

(** *** Round trips *)

(** C2, as amended: for every string [s] over {A,C,G,T} and every length
    [n >= 1] (in particular [1 <= n <= 32]) with [len(s) >= n], decoding
    the encoding of [s] at length [n] returns the first [n] characters:
    [binaryToString(stringToBinary(s, n), n) == s[:n]]. *)
Theorem decode_encode_roundtrip (s : str) (n : Z) :
  forallb is_acgt s = true ->
  1 <= n ->
  n <= Z.of_nat (List.length s) ->
  decode_encode s n = Return (slice_to s n).
Proof.
  intros Hs Hn Hlen. unfold decode_encode.
  assert (List.length (slice_to s n) = Z.to_nat n) as HL
    by (rewrite slice_to_firstn by lia; apply firstn_length_le; lia).
  rewrite stringToBinary_value.
  - cbn [obind]. f_equal. rewrite binaryToString_symbols, <- HL.
    apply symbols_value_of.
    rewrite slice_to_firstn by lia. now apply forallb_firstn.
  - intros E. rewrite E in HL. cbn in HL. lia.
  - rewrite slice_to_firstn by lia. now apply forallb_firstn.
Qed.

Lemma decode_encode_roundtrip_witness :
  decode_encode (list_ascii_of_string "GATTACA") 4 =
  Return (slice_to (list_ascii_of_string "GATTACA") 4).
Proof.
  apply (decode_encode_roundtrip (list_ascii_of_string "GATTACA") 4);
    [reflexivity | lia | cbn; lia].
Defined.

(** C2, as stated, fails at [n = 0]: [s[:0]] is empty and [int('', 2)]
    raises [ValueError], so nothing is decoded. *)
Lemma decode_encode_zero_length :
  forallb is_acgt (list_ascii_of_string "ACGT") = true /\
  0 <= 0 <= 32 /\
  0 <= Z.of_nat (List.length (list_ascii_of_string "ACGT")) /\
  decode_encode (list_ascii_of_string "ACGT") 0 = Raise ValueError /\
  decode_encode (list_ascii_of_string "ACGT") 0 <>
    Return (slice_to (list_ascii_of_string "ACGT") 0).
Proof.
  repeat split; try reflexivity; try (cbn; lia); discriminate.
Qed.

(** C3, as amended: for every [n >= 1] and every integer [x] with
    [0 <= x < 4^n], encoding the decoding of [x] at length [n] returns
    [x]: [stringToBinary(binaryToString(x, n), n) == x]. *)
Theorem encode_decode_roundtrip (x n : Z) :
  1 <= n ->
  0 <= x < 4 ^ n ->
  encode_decode x n = Return x.
Proof.
  intros Hn Hx. unfold encode_decode.
  rewrite binaryToString_symbols.
  assert (slice_to (symbols x (Z.to_nat n)) n = symbols x (Z.to_nat n)) as E
    by (apply slice_to_all; rewrite symbols_length; lia).
  rewrite stringToBinary_value; rewrite E.
  - rewrite value_of_symbols, Z2Nat.id by lia.
    now rewrite Z.mod_small.
  - intros E0. apply (f_equal (@List.length _)) in E0.
    rewrite symbols_length in E0. cbn in E0. lia.
  - apply symbols_acgt.
Qed.

Lemma encode_decode_roundtrip_witness : encode_decode 27 4 = Return 27.
Proof. apply (encode_decode_roundtrip 27 4); [lia | cbn; lia]. Defined.

(** C3, as stated, fails at [n = 0], [x = 0]: the decoding is the empty
    string, which [stringToBinary] cannot encode. *)
Lemma encode_decode_zero_length :
  0 <= 0 < 4 ^ 0 /\
  binaryToString 0 0 = [] /\
  encode_decode 0 0 = Raise ValueError /\
  encode_decode 0 0 <> Return 0.
Proof. repeat split; try reflexivity; try (cbn; lia); discriminate. Qed.

(** C8, as amended: [stringToBinary] has no length check. For every
    string [s] and length [n] with [len(s) < n] it encodes the whole of
    [s], as [stringToBinary(s, len(s))] does; for a non-empty [s] over
    {A,C,G,T} that is the value of its [len(s)] symbols, returned without
    any error. *)
Theorem stringToBinary_short_input (s : str) (n : Z) :
  Z.of_nat (List.length s) < n ->
  stringToBinary s n = stringToBinary s (Z.of_nat (List.length s)) /\
  (s <> [] -> forallb is_acgt s = true ->
   stringToBinary s n = Return (value_of s)).
Proof.
  intros H. split.
  - unfold stringToBinary. now rewrite !slice_to_all by lia.
  - intros Hne Hs. rewrite stringToBinary_value; rewrite slice_to_all by lia;
      auto.
Qed.

Lemma stringToBinary_short_input_witness :
  stringToBinary (list_ascii_of_string "AC") 5 =
    stringToBinary (list_ascii_of_string "AC") 2 /\
  stringToBinary (list_ascii_of_string "AC") 5 = Return 1.
Proof.
  destruct (stringToBinary_short_input (list_ascii_of_string "AC") 5)
    as [H1 H2]; [cbn; lia|].
  split; [exact H1 | apply H2; [discriminate | reflexivity]].
Defined.

(** C8, as stated, fails: a 2-symbol string encoded at length 5 returns
    the code of its 2 symbols, no error is raised. *)
Lemma stringToBinary_short_input_no_error :
  Z.of_nat (List.length (list_ascii_of_string "AC")) < 5 /\
  stringToBinary (list_ascii_of_string "AC") 5 = Return 1 /\
  stringToBinary (list_ascii_of_string "AC") 5 <> Raise ValueError.
Proof. repeat split; try reflexivity; try (cbn; lia); discriminate. Qed.

(** ** [struct]: packing and unpacking are inverse *)

Lemma Z_of_byte_of_Z x : Z_of_byte (byte_of_Z x) = x mod 256.
Proof.
  unfold Z_of_byte, byte_of_Z.
  pose proof (Z.mod_pos_bound x 256 eq_refl) as Hr.
  destruct (Byte.of_N (Z.to_N (x mod 256))) as [b|] eqn:E.
  - apply Byte.to_of_N in E. rewrite E. lia.
  - apply Byte.of_N_None_iff in E. lia.
Qed.

Lemma le_bytes_length w x : List.length (le_bytes w x) = w.
Proof.
  revert x. induction w as [|w IH]; intros x; cbn; [reflexivity | now rewrite IH].
Qed.

Lemma le_value_le_bytes w x :
  le_value (le_bytes w x) = x mod 2 ^ (8 * Z.of_nat w).
Proof.
  revert x. induction w as [|w IH]; intros x.
  - cbn. now rewrite Z.mod_1_r.
  - cbn [le_bytes le_value]. rewrite Z_of_byte_of_Z, IH.
    replace (8 * Z.of_nat (S w)) with (8 + 8 * Z.of_nat w) by lia.
    rewrite Z.pow_add_r by lia. change (2 ^ 8) with 256.
    assert (0 < 2 ^ (8 * Z.of_nat w)) by (apply Z.pow_pos_nonneg; lia).
    rewrite (Z.rem_mul_r x 256) by lia. reflexivity.
Qed.

Lemma pack_uint_inv w x b :
  pack_uint w x = Return b ->
  b = le_bytes w x /\ List.length b = w /\ le_value b = x.
Proof.
  unfold pack_uint.
  destruct ((0 <=? x) && (x <? 2 ^ (8 * Z.of_nat w))) eqn:E; [|discriminate].
  intros H. injection H as <-. apply andb_true_iff in E as [H0 H1].
  repeat split.
  - apply le_bytes_length.
  - rewrite le_value_le_bytes. apply Z.mod_small. lia.
Qed.

Lemma firstn_app_exact {A} (a b : list A) n :
  List.length a = n -> firstn n (a ++ b) = a.
Proof.
  intros <-. rewrite firstn_app, Nat.sub_diag, firstn_all. cbn.
  apply app_nil_r.
Qed.

Lemma skipn_app_exact {A} (a b : list A) n :
  List.length a = n -> skipn n (a ++ b) = b.
Proof.
  intros <-. rewrite skipn_app, Nat.sub_diag, skipn_all. reflexivity.
Qed.

(** What [struct.pack] returns has the size of the format, and
    [struct.unpack] gives the packed values back. *)
Lemma struct_pack_inv fmt : forall vs b,
  struct_pack fmt vs = Return b ->
  List.length b = calcsize fmt /\ forall rest, unpack_fields fmt (b ++ rest) = vs.
Proof.
  induction fmt as [|c fmt IH]; intros [|v vs] b H; cbn in H; try discriminate.
  - injection H as <-. split; reflexivity.
  - destruct (pack_uint (fmt_size c) v) as [b1|] eqn:E1; [|discriminate].
    cbn [obind] in H.
    destruct (struct_pack fmt vs) as [b2|] eqn:E2; [|discriminate].
    cbn [obind] in H. injection H as <-.
    apply pack_uint_inv in E1 as (_ & HL & HV).
    destruct (IH _ _ E2) as [HL2 HU]. split.
    + rewrite length_app, HL, HL2. reflexivity.
    + intros rest. cbn [unpack_fields]. rewrite <- app_assoc.
      rewrite firstn_app_exact, skipn_app_exact by assumption.
      now rewrite HV, HU.
Qed.

Lemma struct_unpack_pack fmt vs b :
  struct_pack fmt vs = Return b -> struct_unpack fmt b = Return vs.
Proof.
  intros H. apply struct_pack_inv in H as [HL HU].
  unfold struct_unpack. rewrite HL, Nat.eqb_refl.
  specialize (HU []). rewrite app_nil_r in HU. now rewrite HU.
Qed.

Lemma u32_range x : u32 x = true -> 0 <= x < 2 ^ 32.
Proof. unfold u32. rewrite andb_true_iff. lia. Qed.

Lemma u64_range x : u64 x = true -> 0 <= x < 2 ^ 64.
Proof. unfold u64. rewrite andb_true_iff. lia. Qed.

Lemma pack_uint_u32 x : u32 x = true -> pack_uint 4 x = Return (le_bytes 4 x).
Proof. intros H. unfold pack_uint. change (2 ^ (8 * Z.of_nat 4)) with (2 ^ 32).
  unfold u32 in H. now rewrite H. Qed.

Lemma pack_uint_u64 x : u64 x = true -> pack_uint 8 x = Return (le_bytes 8 x).
Proof. intros H. unfold pack_uint. change (2 ^ (8 * Z.of_nat 8)) with (2 ^ 64).
  unfold u64 in H. now rewrite H. Qed.

Lemma bytes_eqb_eq a b : bytes_eqb a b = true <-> a = b.
Proof.
  revert b. induction a as [|x a IH]; intros [|y b]; cbn; split;
    try congruence; try reflexivity.
  - rewrite andb_true_iff. intros [H1 H2].
    apply Byte.byte_dec_bl in H1. apply IH in H2. congruence.
  - intros H. injection H as -> ->. rewrite andb_true_iff. split.
    + now apply Byte.byte_dec_lb.
    + now apply IH.
Qed.

(** *** Records *)

Lemma encode_record_length r : List.length (encode_record r) = 32%nat.
Proof.
  destruct r as [bc [[[umi ec] num] flag]]. unfold encode_record.
  rewrite !length_app, !le_bytes_length. reflexivity.
Qed.

Lemma struct_pack_record r :
  record_ok r = true ->
  struct_pack [fmt_Q; fmt_Q; fmt_I; fmt_I; fmt_I; fmt_I]
    [fst r; fst (fst (fst (snd r))); snd (fst (fst (snd r)));
     snd (fst (snd r)); snd (snd r); 0] = Return (encode_record r).
Proof.
  destruct r as [bc [[[umi ec] num] flag]]. unfold record_ok, entry_ok.
  cbn [fst snd]. rewrite !andb_true_iff. intros (Hbc & ((Hu & He) & Hn) & Hf).
  cbn [struct_pack fmt_size].
  rewrite !pack_uint_u64, !pack_uint_u32 by (assumption || reflexivity).
  cbn [obind]. unfold encode_record. now rewrite app_nil_r.
Qed.

Lemma unpack_record_block b :
  List.length b = 32%nat -> unpack_record b = Return (decode_block b).
Proof.
  intros H. unfold unpack_record, struct_unpack. rewrite H.
  cbn [calcsize fold_right fmt_size Nat.add Nat.eqb obind unpack_fields].
  unfold decode_block. rewrite !skipn_skipn. reflexivity.
Qed.

Lemma unpack_record_short b :
  List.length b <> 32%nat -> unpack_record b = Raise struct_error.
Proof.
  intros H. unfold unpack_record, struct_unpack.
  change (calcsize [fmt_Q; fmt_Q; fmt_I; fmt_I; fmt_I; fmt_I]) with 32%nat.
  apply Nat.eqb_neq in H. now rewrite H.
Qed.

Lemma decode_encode_record r :
  record_ok r = true -> decode_block (encode_record r) = r.
Proof.
  intros H. pose proof (struct_pack_record r H) as HP.
  apply struct_pack_inv in HP as [_ HU]. specialize (HU []).
  rewrite app_nil_r in HU. cbn [unpack_fields fmt_size] in HU.
  rewrite !skipn_skipn in HU. cbn [Nat.add] in HU.
  assert (forall a b c d e f a' b' c' d' e' f' : Z,
             [a; b; c; d; e; f] = [a'; b'; c'; d'; e'; f'] ->
             (a, (b, c, d, e)) = (a', (b', c', d', e'))) as Hlist
    by (intros; congruence).
  destruct r as [bc [[[umi ec] num] flag]].
  exact (Hlist _ _ _ _ _ _ _ _ _ _ _ _ HU).
Qed.

(** ** The body parser *)

Lemma parseBUS_loop_step b st :
  parseBUS_loop b st =
  match b with
  | [] => (Return tt, st)
  | _ :: _ =>
      match parseBUS_iter b st with
      | (Return b', st') => parseBUS_loop b' st'
      | (Raise e, st') => (Raise e, st')
      end
  end.
Proof.
  destruct b as [|c b0]; simp parseBUS_loop; [reflexivity|].
  assert (forall p : {y | parseBUS_iter (c :: b0) st = y},
             parseBUS_loop_unfold_clause_2 c b0 st p =
             match proj1_sig p with
             | (Return b', st') => parseBUS_loop b' st'
             | (Raise e, st') => (Raise e, st')
             end) as H
    by (intros [[[b'|e] st'] Heq]; simp parseBUS_loop; reflexivity).
  apply (H (inspect (parseBUS_iter (c :: b0) st))).
Qed.

Lemma parseBUS_iter_block b st :
  List.length b = 32%nat ->
  parseBUS_iter b st =
  (Return (firstn 32 (inf st)),
   mkReader (add_record (self st) (decode_block b)) (skipn 32 (inf st))
     (emitted st)).
Proof.
  intros H. unfold parseBUS_iter, bind, lift.
  rewrite (unpack_record_block b H). reflexivity.
Qed.

Lemma parseBUS_iter_short b st :
  List.length b <> 32%nat -> parseBUS_iter b st = (Raise struct_error, st).
Proof.
  intros H. unfold parseBUS_iter, bind, lift.
  rewrite (unpack_record_short b H). reflexivity.
Qed.

(** The loop on a stream [s] that holds [k] whole blocks and then fewer
    than 32 bytes: the [k] records are added in turn; the loop returns
    when nothing is left and raises when a partial block is. *)
Lemma parseBUS_loop_spec k : forall s o ev,
  (32 * k <= List.length s < 32 * (k + 1))%nat ->
  parseBUS_loop (firstn 32 s) (mkReader o (skipn 32 s) ev) =
  (if (List.length s =? 32 * k)%nat then Return tt else Raise struct_error,
   mkReader (fold_left add_record (records_of k s) o) [] ev).
Proof.
  induction k as [|k IH]; intros s o ev H.
  - rewrite firstn_all2, skipn_all2 by lia.
    rewrite parseBUS_loop_step. destruct s as [|c s]; [reflexivity|].
    rewrite parseBUS_iter_short by lia. reflexivity.
  - assert (List.length (firstn 32 s) = 32%nat) as HL
      by (apply firstn_length_le; lia).
    rewrite parseBUS_loop_step.
    destruct (firstn 32 s) as [|c b0] eqn:Eb; [discriminate|].
    rewrite parseBUS_iter_block by assumption.
    cbn [inf self emitted]. rewrite IH by (rewrite length_skipn; lia).
    rewrite length_skipn. cbn [records_of fold_left]. rewrite Eb.
    f_equal.
    destruct (Nat.eqb_spec (List.length s - 32) (32 * k));
      destruct (Nat.eqb_spec (List.length s) (32 * S k)); (reflexivity || lia).
Qed.

Lemma parseBUS_spec st :
  let k := (List.length (inf st) / 32)%nat in
  parseBUS st =
  (if (List.length (inf st) mod 32 =? 0)%nat
   then Return tt else Raise struct_error,
   mkReader
     (fold_left add_record (records_of k (inf st))
        (set_n_entries (n_entries (self st) + 1) (self st)))
     [] (emitted st)).
Proof.
  intros k. unfold parseBUS, bind, inf_read, incr_n_entries, on_self, modify.
  cbn [self inf emitted].
  change (Z.to_nat 32) with 32%nat.
  pose proof (Nat.div_mod_eq (List.length (inf st)) 32) as Hdm.
  pose proof (Nat.mod_upper_bound (List.length (inf st)) 32) as Hub.
  fold k in Hdm.
  rewrite (parseBUS_loop_spec k) by lia. f_equal.
  destruct (Nat.eqb_spec (List.length (inf st)) (32 * k));
    destruct (Nat.eqb_spec (List.length (inf st) mod 32) 0);
    (reflexivity || lia).
Qed.

Lemma records_of_length k s : List.length (records_of k s) = k.
Proof.
  revert s. induction k as [|k IH]; intros s; cbn; [reflexivity | now rewrite IH].
Qed.

Lemma add_record_n_entries o r :
  n_entries (add_record o r) = n_entries o + 1.
Proof.
  unfold add_record, bcd_append. cbn [bcd set_n_entries].
  destruct (dict_get (bcd o) (fst r)); reflexivity.
Qed.

Lemma add_record_bcd o r : bcd (add_record o r) = dict_append (bcd o) r.
Proof.
  unfold add_record, bcd_append, dict_append. cbn [bcd set_n_entries].
  destruct (dict_get (bcd o) (fst r)); reflexivity.
Qed.

Lemma fold_add_record_n_entries rs : forall o,
  n_entries (fold_left add_record rs o) =
  n_entries o + Z.of_nat (List.length rs).
Proof.
  induction rs as [|r rs IH]; intros o; cbn [fold_left List.length]; [lia|].
  rewrite IH, add_record_n_entries. lia.
Qed.

Lemma fold_add_record_bcd rs : forall o,
  bcd (fold_left add_record rs o) = fold_left dict_append rs (bcd o).
Proof.
  induction rs as [|r rs IH]; intros o; cbn [fold_left]; [reflexivity|].
  now rewrite IH, add_record_bcd.
Qed.

(** The attributes the loop leaves alone. *)
Lemma fold_add_record_header rs : forall o,
  let o' := fold_left add_record rs o in
  text o' = text o /\ version o' = version o /\ bclen o' = bclen o /\
  umilen o' = umilen o /\ textlen o' = textlen o /\ format o' = format o /\
  in_file_path o' = in_file_path o /\ out_file_path o' = out_file_path o.
Proof.
  induction rs as [|r rs IH]; intros o; cbn [fold_left]; [repeat split|].
  specialize (IH (add_record o r)). cbv zeta in IH.
  assert (forall o r, text (add_record o r) = text o /\
            version (add_record o r) = version o /\
            bclen (add_record o r) = bclen o /\
            umilen (add_record o r) = umilen o /\
            textlen (add_record o r) = textlen o /\
            format (add_record o r) = format o /\
            in_file_path (add_record o r) = in_file_path o /\
            out_file_path (add_record o r) = out_file_path o) as Hstep.
  { intros o0 r0. unfold add_record, bcd_append. cbn [bcd set_n_entries].
    destruct (dict_get (bcd o0) (fst r0)); repeat split. }
  destruct (Hstep o r) as (E1 & E2 & E3 & E4 & E5 & E6 & E7 & E8).
  destruct IH as (I1 & I2 & I3 & I4 & I5 & I6 & I7 & I8).
  repeat split; congruence.
Qed.

(** C4: a body whose length is not a multiple of 32 makes [parseBUS]
    raise ([struct.error], from unpacking the partial last block: the
    block is neither dropped nor decoded); a body whose length is a
    multiple of 32 is parsed without an exception. *)
Theorem parseBUS_truncated (st : reader) :
  ((List.length (inf st) mod 32 <> 0)%nat ->
   fst (parseBUS st) = Raise struct_error) /\
  ((List.length (inf st) mod 32 = 0)%nat ->
   fst (parseBUS st) = Return tt).
Proof.
  rewrite parseBUS_spec. cbn [fst].
  destruct (Nat.eqb_spec (List.length (inf st) mod 32) 0); split; intros;
    (reflexivity || contradiction || lia).
Qed.

Lemma parseBUS_truncated_witness :
  fst (parseBUS (mkReader BUSFIle_init (repeat x01 52) [])) = Raise struct_error
  /\ fst (parseBUS (mkReader BUSFIle_init (repeat x01 64) [])) = Return tt.
Proof.
  split.
  - apply (parseBUS_truncated (mkReader BUSFIle_init (repeat x01 52) [])).
    cbn. lia.
  - apply (parseBUS_truncated (mkReader BUSFIle_init (repeat x01 64) [])).
    reflexivity.
Defined.

(** ** The record map *)

Lemma dict_get_set d k v k' :
  dict_get (dict_set d k v) k' = if k =? k' then Some v else dict_get d k'.
Proof.
  induction d as [|[k0 v0] d IH]; cbn [dict_set dict_get].
  - destruct (k =? k'); reflexivity.
  - destruct (Z.eqb_spec k0 k) as [->|Hne]; cbn [dict_get].
    + destruct (k =? k'); reflexivity.
    + rewrite IH. destruct (Z.eqb_spec k0 k'), (Z.eqb_spec k k');
        (reflexivity || congruence).
Qed.

Lemma dict_get_append d r bc :
  dict_get (dict_append d r) bc =
  if fst r =? bc
  then Some (match dict_get d (fst r) with
             | Some l => l ++ [snd r]
             | None => [snd r]
             end)
  else dict_get d bc.
Proof.
  unfold dict_append.
  destruct (dict_get d (fst r)); apply dict_get_set.
Qed.

Lemma tuples_of_cons bc r rs :
  tuples_of bc (r :: rs) =
  if fst r =? bc then snd r :: tuples_of bc rs else tuples_of bc rs.
Proof. unfold tuples_of. cbn [filter]. destruct (fst r =? bc); reflexivity. Qed.

(** After the records [rs] have been added, the sequence of a barcode is
    what it was, followed by the tuples of that barcode in the order of
    [rs]. *)
Lemma dict_get_fold_append bc rs : forall d,
  dict_get (fold_left dict_append rs d) bc =
  match dict_get d bc, tuples_of bc rs with
  | Some l, ts => Some (l ++ ts)
  | None, [] => None
  | None, ts => Some ts
  end.
Proof.
  induction rs as [|r rs IH]; intros d.
  - cbn. destruct (dict_get d bc); [now rewrite app_nil_r | reflexivity].
  - cbn [fold_left]. rewrite IH, dict_get_append, tuples_of_cons.
    destruct (Z.eqb_spec (fst r) bc) as [->|Hne]; [|reflexivity].
    destruct (dict_get d bc) as [l|].
    + now rewrite <- app_assoc.
    + reflexivity.
Qed.

(** C5: on a body made of whole 32-byte blocks, [parseBUS] returns, and
    the sequence it leaves for any barcode [bc] is the sequence [bc] had
    before (none, if [bc] was absent: its first tuple then starts a new
    sequence) followed by the tuples of the records of [bc], in the order
    of the stream. *)
Theorem parseBUS_groups (st : reader) (bc : Z) :
  (List.length (inf st) mod 32 = 0)%nat ->
  fst (parseBUS st) = Return tt /\
  dict_get (bcd (self (snd (parseBUS st)))) bc =
  match dict_get (bcd (self st)) bc,
        tuples_of bc (records_of (List.length (inf st) / 32) (inf st)) with
  | Some l, ts => Some (l ++ ts)
  | None, [] => None
  | None, ts => Some ts
  end.
Proof.
  intros H. rewrite parseBUS_spec. cbn [fst snd self]. rewrite H. split.
  - reflexivity.
  - rewrite fold_add_record_bcd. apply dict_get_fold_append.
Qed.

Lemma parseBUS_groups_witness :
  fst (parseBUS (mkReader BUSFIle_init example_body [])) = Return tt /\
  dict_get (bcd (self (snd (parseBUS (mkReader BUSFIle_init example_body [])))))
    7 = Some [(1, 2, 3, 4); (8, 8, 8, 8)].
Proof.
  apply (parseBUS_groups (mkReader BUSFIle_init example_body []) 7).
  reflexivity.
Defined.

(** C7: what the code does is count the calls to [inf.read]: on a body of
    exactly [k] whole blocks [n_entries] grows by [k + 1], the read that
    finds the end of the file being counted too, and not by [k]. *)
Theorem parseBUS_n_entries (st : reader) (k : nat) :
  List.length (inf st) = (32 * k)%nat ->
  fst (parseBUS st) = Return tt /\
  n_entries (self (snd (parseBUS st))) =
  n_entries (self st) + Z.of_nat k + 1.
Proof.
  intros H. rewrite parseBUS_spec. cbn [fst snd self].
  assert ((List.length (inf st) mod 32 = 0)%nat) as ->
    by (rewrite H, Nat.mul_comm; apply Nat.Div0.mod_mul).
  assert ((List.length (inf st) / 32 = k)%nat) as ->
    by (rewrite H, Nat.mul_comm; apply Nat.div_mul; lia).
  split; [reflexivity|].
  rewrite fold_add_record_n_entries, records_of_length.
  cbn [n_entries set_n_entries]. lia.
Qed.

Lemma parseBUS_n_entries_witness :
  fst (parseBUS (mkReader BUSFIle_init example_body [])) = Return tt /\
  n_entries (self (snd (parseBUS (mkReader BUSFIle_init example_body [])))) =
  0 + Z.of_nat 3 + 1.
Proof.
  apply (parseBUS_n_entries (mkReader BUSFIle_init example_body []) 3).
  reflexivity.
Defined.

(** ** The header *)

Lemma writeHeader_written o written :
  header_ok o = true ->
  writeHeader o written = (Return tt, written ++ header_bytes o).
Proof.
  intros H. unfold header_ok in H. rewrite !andb_true_iff in H.
  destruct H as (((Hv & Hb) & Hu) & Ht).
  unfold writeHeader, bind, lift, outf_write, modify, header_bytes.
  fold (text_bytes_of o). cbn [struct_pack fmt_size].
  rewrite !pack_uint_u32 by assumption. cbn [obind].
  rewrite <- !app_assoc. cbn [app]. reflexivity.
Qed.

(** C9: for a header whose fields fit their unsigned 32-bit slots,
    [writeHeader] writes exactly the magic tag [b"BUS\x00"], then
    [version], [bclen], [umilen] and the byte length of the text payload
    as little-endian u32, then the payload itself (the text when it is
    [bytes], its UTF-8 encoding when it is a [str]); the length written
    is computed from the payload, the stored [textlen] is never read. *)
Theorem writeHeader_layout (o : BUSFIle) (written : bytes) :
  header_ok o = true ->
  writeHeader o written =
    (Return tt,
     written ++ magic_BUS ++ le_bytes 4 (version o) ++ le_bytes 4 (bclen o)
       ++ le_bytes 4 (umilen o)
       ++ le_bytes 4 (Z.of_nat (List.length (text_bytes_of o)))
       ++ text_bytes_of o) /\
  (forall tl,
      writeHeader (set_header (version o) (bclen o) (umilen o) tl o) written =
      writeHeader o written).
Proof.
  intros H. split; [|reflexivity].
  now rewrite writeHeader_written.
Qed.

Lemma writeHeader_layout_witness :
  writeHeader (set_header 1 16 12 99 (set_text (PBytes [x41; x42]) BUSFIle_init)) []
  = (Return tt,
     [x42; x55; x53; x00; x01; x00; x00; x00; x10; x00; x00; x00;
      x0c; x00; x00; x00; x02; x00; x00; x00; x41; x42]).
Proof.
  apply (writeHeader_layout
           (set_header 1 16 12 99 (set_text (PBytes [x41; x42]) BUSFIle_init)) []).
  reflexivity.
Defined.

Lemma parseHeader_unknown o content ev :
  (4 <= List.length content)%nat ->
  firstn 4 content <> magic_BUS ->
  parseHeader (mkReader o content ev) =
  (Return tt,
   mkReader (set_format (PBytes (firstn 4 content)) o) (skipn 4 content) ev).
Proof.
  intros HL Hm. unfold parseHeader, bind, inf_read, lift, struct_unpack_s.
  cbn [self inf emitted]. change (Z.to_nat 4) with 4%nat.
  rewrite firstn_length_le by assumption. cbn [Z.of_nat Pos.of_succ_nat Pos.succ Z.eqb Pos.eqb].
  destruct (bytes_eqb (firstn 4 content) magic_BUS) eqn:E.
  - apply bytes_eqb_eq in E. contradiction.
  - reflexivity.
Qed.

(** C6: a file whose first 4 bytes are not [b"BUS\x00"] is read without
    an exception: [parseHeader] consumes the 4 magic bytes only and sets
    nothing but [format], to the raw magic; [read] then does not call
    [parseBUS], so the instance returned is the initial one (empty record
    map, all counters 0) with [format] set, and the unknown format is
    printed. *)
Theorem read_unknown_format (path : str) (fsys : fs) (content : bytes) :
  fsys path = Some content ->
  (4 <= List.length content)%nat ->
  firstn 4 content <> magic_BUS ->
  (forall o ev,
      parseHeader (mkReader o content ev) =
      (Return tt,
       mkReader (set_format (PBytes (firstn 4 content)) o)
         (skipn 4 content) ev)) /\
  read path fsys =
    (Return (set_format (PBytes (firstn 4 content))
               (set_in_file_path path BUSFIle_init)),
     [print_not_implemented (PBytes (firstn 4 content))]) /\
  (forall inst, fst (read path fsys) = Return inst ->
      format inst = PBytes (firstn 4 content) /\ bcd inst = [] /\
      n_entries inst = 0 /\ version inst = 0 /\ text inst = PStr []).
Proof.
  intros Hf HL Hm.
  assert (read path fsys =
            (Return (set_format (PBytes (firstn 4 content))
                       (set_in_file_path path BUSFIle_init)),
             [print_not_implemented (PBytes (firstn 4 content))])) as Hread.
  { unfold read. rewrite Hf. unfold bind at 1.
    rewrite parseHeader_unknown by assumption. reflexivity. }
  split; [|split].
  - intros o ev. now apply parseHeader_unknown.
  - exact Hread.
  - intros inst Hi. rewrite Hread in Hi. cbn [fst] in Hi.
    injection Hi as <-. repeat split.
Qed.

Lemma read_unknown_format_witness :
  read (list_ascii_of_string "x.bus")
    (fs_put no_files (list_ascii_of_string "x.bus") [x58; x58; x58; x58; x01])
  = (Return (set_format (PBytes [x58; x58; x58; x58])
               (set_in_file_path (list_ascii_of_string "x.bus") BUSFIle_init)),
     [print_not_implemented (PBytes [x58; x58; x58; x58])]).
Proof.
  apply (read_unknown_format (list_ascii_of_string "x.bus")
           (fs_put no_files (list_ascii_of_string "x.bus")
              [x58; x58; x58; x58; x01])
           [x58; x58; x58; x58; x01]).
  - reflexivity.
  - cbn. lia.
  - discriminate.
Defined.

(** ** Writing and reading back *)

Lemma writeBUS_block_ok bc tup w :
  record_ok (bc, tup) = true ->
  writeBUS_block bc tup w = (Return tt, w ++ encode_record (bc, tup)).
Proof.
  intros H. pose proof (struct_pack_record (bc, tup) H) as HP.
  destruct tup as [[[t0 t1] t2] t3]. cbn [fst snd] in HP.
  unfold writeBUS_block, bind, lift. rewrite HP. reflexivity.
Qed.

Lemma for_each_blocks bc value : forall w,
  u64 bc = true -> forallb entry_ok value = true ->
  for_each value (writeBUS_block bc) w =
  (Return tt, w ++ flat_map encode_record (map (fun t => (bc, t)) value)).
Proof.
  induction value as [|t value IH]; intros w Hbc Hv.
  - cbn. now rewrite app_nil_r.
  - cbn [forallb] in Hv. apply andb_true_iff in Hv as [Ht Hv].
    cbn [for_each map flat_map]. unfold bind.
    rewrite writeBUS_block_ok
      by (unfold record_ok; cbn [fst snd]; now rewrite Hbc, Ht).
    rewrite IH by assumption. now rewrite <- app_assoc.
Qed.

Lemma item_ok_inv bc value :
  item_ok (bc, value) = true ->
  value <> [] /\ u64 bc = true /\ forallb entry_ok value = true.
Proof.
  unfold item_ok. cbn [fst snd]. destruct value as [|t value]; [discriminate|].
  rewrite andb_true_iff. intros [H1 H2]. repeat split; [discriminate|auto..].
Qed.

Lemma flatten_cons bc value d :
  flatten ((bc, value) :: d) = map (fun t => (bc, t)) value ++ flatten d.
Proof. reflexivity. Qed.

Lemma for_each_items d : forall w,
  forallb item_ok d = true ->
  for_each d (fun item => let '(bc, value) := item in
                          for_each value (writeBUS_block bc)) w =
  (Return tt, w ++ flat_map encode_record (flatten d)).
Proof.
  induction d as [|[bc value] d IH]; intros w Hd.
  - cbn. now rewrite app_nil_r.
  - cbn [forallb] in Hd. apply andb_true_iff in Hd as [Hi Hd].
    apply item_ok_inv in Hi as (_ & Hbc & Hv).
    cbn [for_each]. unfold bind. rewrite for_each_blocks by assumption.
    rewrite IH by assumption.
    now rewrite flatten_cons, flat_map_app, <- app_assoc.
Qed.

Lemma flatten_ok d :
  forallb item_ok d = true -> forallb record_ok (flatten d) = true.
Proof.
  induction d as [|[bc value] d IH]; [reflexivity|].
  cbn [forallb]. rewrite andb_true_iff. intros [Hi Hd].
  apply item_ok_inv in Hi as (_ & Hbc & Hv).
  specialize (IH Hd). unfold record in *.
  rewrite flatten_cons, forallb_app, IH, andb_true_r.
  clear -Hbc Hv. induction value as [|t value IHv]; [reflexivity|].
  cbn [forallb] in Hv. apply andb_true_iff in Hv as [Ht Hv].
  cbn [map forallb]. unfold record_ok at 1. cbn [fst snd].
  now rewrite Hbc, Ht, IHv.
Qed.

(** The blocks written for a list of records decode to that list. *)
Lemma records_of_encoded rs : forall rest,
  forallb record_ok rs = true ->
  records_of (List.length rs) (flat_map encode_record rs ++ rest) = rs.
Proof.
  induction rs as [|r rs IH]; intros rest H; [reflexivity|].
  cbn [forallb] in H. apply andb_true_iff in H as [Hr Hrs].
  cbn [List.length records_of flat_map]. rewrite <- app_assoc.
  rewrite firstn_app_exact, skipn_app_exact by apply encode_record_length.
  now rewrite decode_encode_record, IH.
Qed.

Lemma flat_map_encode_length rs :
  List.length (flat_map encode_record rs) = (32 * List.length rs)%nat.
Proof.
  induction rs as [|r rs IH]; [reflexivity|].
  cbn [flat_map List.length]. rewrite length_app, encode_record_length, IH. lia.
Qed.

(** *** Rebuilding the map from its own records *)

Lemma keys_distinct_NoDup d : keys_distinct d = true -> NoDup (map fst d).
Proof.
  induction d as [|[k v] d IH]; cbn [keys_distinct map fst]; [constructor|].
  rewrite andb_true_iff, negb_true_iff. intros [Hk Hd].
  constructor; [|now apply IH].
  intros Hin. assert (existsb (Z.eqb k) (map fst d) = true); [|congruence].
  apply existsb_exists. exists k. split; [assumption | apply Z.eqb_refl].
Qed.

Lemma dict_get_absent d k : ~ In k (map fst d) -> dict_get d k = None.
Proof.
  induction d as [|[k0 v0] d IH]; cbn [map fst dict_get In]; [reflexivity|].
  intros H. destruct (Z.eqb_spec k0 k); [tauto | apply IH; tauto].
Qed.

Lemma dict_set_absent d k v :
  ~ In k (map fst d) -> dict_set d k v = d ++ [(k, v)].
Proof.
  induction d as [|[k0 v0] d IH]; cbn [map fst dict_set In app]; [reflexivity|].
  intros H. destruct (Z.eqb_spec k0 k); [tauto | rewrite IH; tauto].
Qed.

Lemma dict_get_last d k l :
  ~ In k (map fst d) -> dict_get (d ++ [(k, l)]) k = Some l.
Proof.
  induction d as [|[k0 v0] d IH]; cbn [map fst dict_get In app].
  - now rewrite Z.eqb_refl.
  - intros H. destruct (Z.eqb_spec k0 k); [tauto | apply IH; tauto].
Qed.

Lemma dict_set_last d k l v :
  ~ In k (map fst d) -> dict_set (d ++ [(k, l)]) k v = d ++ [(k, v)].
Proof.
  induction d as [|[k0 v0] d IH]; cbn [map fst dict_set In app].
  - now rewrite Z.eqb_refl.
  - intros H. destruct (Z.eqb_spec k0 k); [tauto | rewrite IH; tauto].
Qed.

Lemma fold_append_same k ts : forall d l,
  ~ In k (map fst d) ->
  fold_left dict_append (map (fun t => (k, t)) ts) (d ++ [(k, l)]) =
  d ++ [(k, l ++ ts)].
Proof.
  induction ts as [|t ts IH]; intros d l H; cbn [map fold_left].
  - now rewrite app_nil_r.
  - unfold dict_append at 2. cbn [fst snd].
    rewrite dict_get_last, dict_set_last by assumption.
    rewrite IH by assumption. now rewrite <- app_assoc.
Qed.

Lemma fold_append_flatten d2 : forall d1,
  NoDup (map fst (d1 ++ d2)) ->
  forallb item_ok d2 = true ->
  fold_left dict_append (flatten d2) d1 = d1 ++ d2.
Proof.
  induction d2 as [|[k v] d2 IH]; intros d1 Hnd Hok.
  - cbn. now rewrite app_nil_r.
  - cbn [forallb] in Hok. apply andb_true_iff in Hok as [Hi Hok].
    apply item_ok_inv in Hi as (Hne & _ & _).
    destruct v as [|t ts]; [congruence|].
    assert (~ In k (map fst d1)) as Hk.
    { rewrite map_app in Hnd. cbn [map fst] in Hnd.
      apply NoDup_remove_2 in Hnd. rewrite in_app_iff in Hnd. tauto. }
    rewrite flatten_cons. cbn [map app fold_left]. rewrite fold_left_app.
    unfold dict_append at 3. cbn [fst snd].
    rewrite dict_get_absent, dict_set_absent by assumption.
    rewrite fold_append_same by assumption. cbn [app].
    rewrite IH; [now rewrite <- app_assoc | | assumption].
    now rewrite <- app_assoc.
Qed.

Lemma fold_append_rebuild d :
  bcd_ok d = true -> fold_left dict_append (flatten d) [] = d.
Proof.
  unfold bcd_ok. rewrite andb_true_iff. intros [Hk Hok].
  apply (fold_append_flatten d []); [now apply keys_distinct_NoDup | assumption].
Qed.

(** *** The file as a whole *)

Lemma str_eqb_refl s : str_eqb s s = true.
Proof.
  induction s as [|c s IH]; cbn; [reflexivity|].
  now rewrite Ascii.eqb_refl, IH.
Qed.

Lemma fs_put_same fsys path content : fs_put fsys path content path = Some content.
Proof. unfold fs_put. now rewrite str_eqb_refl. Qed.

(** What [write] leaves in the file. *)
Lemma write_content o path fsys :
  header_ok o = true ->
  forallb item_ok (bcd o) = true ->
  write o path str_BUS fsys =
  (Return tt,
   (set_out_file_path path o,
    fs_put fsys path
      (header_bytes o ++ flat_map encode_record (flatten (bcd o))))).
Proof.
  intros Hh Hd. unfold write.
  assert (header_ok (set_out_file_path path o) = true) as Hh' by exact Hh.
  unfold bind. rewrite (writeHeader_written _ [] Hh').
  rewrite str_eqb_refl. unfold writeBUS. cbn [truthy negb].
  cbn [bcd set_out_file_path].
  rewrite for_each_items by assumption. reflexivity.
Qed.

(** [parseHeader] on the header that [writeHeader] wrote for [c]. *)
Lemma parseHeader_written o c body ev :
  header_ok c = true ->
  parseHeader (mkReader o (header_bytes c ++ body) ev) =
  (Return tt,
   mkReader
     (set_text (PBytes (text_bytes_of c))
        (set_header (version c) (bclen c) (umilen c)
           (Z.of_nat (List.length (text_bytes_of c)))
           (set_format (PStr str_BUS) o)))
     body
     (ev ++ if version c =? BUSFORMAT_VERSION then []
            else [warn_version_differs])).
Proof.
  intros H. unfold header_ok in H. rewrite !andb_true_iff in H.
  destruct H as (((Hv & Hb) & Hu) & Ht).
  set (tb := text_bytes_of c) in *.
  assert (struct_pack [fmt_I; fmt_I; fmt_I; fmt_I]
            [version c; bclen c; umilen c; Z.of_nat (List.length tb)] =
          Return (le_bytes 4 (version c) ++ le_bytes 4 (bclen c)
                    ++ le_bytes 4 (umilen c)
                    ++ le_bytes 4 (Z.of_nat (List.length tb)) ++ [])) as HP.
  { cbn [struct_pack fmt_size]. rewrite !pack_uint_u32 by assumption.
    reflexivity. }
  pose proof (struct_unpack_pack _ _ _ HP) as HU.
  apply struct_pack_inv in HP as [HL _].
  unfold header_bytes. fold tb.
  remember (le_bytes 4 (version c) ++ le_bytes 4 (bclen c)
              ++ le_bytes 4 (umilen c)
              ++ le_bytes 4 (Z.of_nat (List.length tb)) ++ []) as h eqn:Eh.
  assert (le_bytes 4 (version c) ++ le_bytes 4 (bclen c)
            ++ le_bytes 4 (umilen c)
            ++ le_bytes 4 (Z.of_nat (List.length tb)) ++ tb =
          h ++ tb) as ->
    by (rewrite Eh, <- !app_assoc; reflexivity).
  clear Eh. change (calcsize [fmt_I; fmt_I; fmt_I; fmt_I]) with 16%nat in HL.
  unfold parseHeader, bind, inf_read, lift, on_self, modify, gets, emit.
  change (Z.to_nat 4) with 4%nat. change (Z.to_nat 16) with 16%nat.
  cbn [self inf emitted].
  rewrite <- app_assoc.
  rewrite (firstn_app_exact magic_BUS), (skipn_app_exact magic_BUS)
    by reflexivity.
  change (struct_unpack_s 4 magic_BUS) with (Return magic_BUS).
  cbv beta iota.
  change (bytes_eqb magic_BUS magic_BUS) with true.
  cbv beta iota. cbn [self inf emitted].
  rewrite <- app_assoc.
  rewrite firstn_app_exact, skipn_app_exact by assumption.
  rewrite HU. cbn [self inf emitted version textlen set_header set_format].
  destruct (version c =? BUSFORMAT_VERSION);
    cbn [negb modify ret self inf emitted textlen set_header];
    rewrite Nat2Z.id;
    rewrite firstn_app_exact, skipn_app_exact by reflexivity;
    unfold struct_unpack_s; rewrite Z.eqb_refl;
    [rewrite app_nil_r|]; reflexivity.
Qed.

(** C1, as amended: for every container whose header fields fit their
    unsigned 32-bit slots, whose barcodes and tuple fields fit theirs,
    and in which every barcode has at least one tuple, writing it to a
    file and reading that file back returns a container with the same
    [version], [bclen] and [umilen], with [text] equal to the byte payload
    written (the text itself when it is [bytes]), and with the same
    record map: same barcodes in the same order, same tuple sequences. *)
Theorem write_read_roundtrip (c : BUSFIle) (path : str) (fsys : fs) :
  header_ok c = true ->
  bcd_ok (bcd c) = true ->
  exists c',
    read_back c path fsys = Return c' /\
    version c' = version c /\ bclen c' = bclen c /\ umilen c' = umilen c /\
    text c' = PBytes (text_bytes_of c) /\
    (forall b, text c = PBytes b -> text c' = text c) /\
    bcd c' = bcd c.
Proof.
  intros Hh Hd. assert (Hd' := Hd). unfold bcd_ok in Hd'.
  apply andb_true_iff in Hd' as [_ Hitems].
  unfold read_back. rewrite write_content by assumption.
  cbn [fst snd obind]. unfold read. rewrite fs_put_same.
  unfold bind at 1. rewrite parseHeader_written by assumption.
  unfold bind, gets. cbn [self format set_text set_header set_format].
  change (pyval_eqb (PStr str_BUS) (PStr str_BUS)) with true. cbv iota.
  rewrite parseBUS_spec. cbn [self inf emitted].
  set (rs := flatten (bcd c)).
  rewrite flat_map_encode_length.
  assert ((32 * List.length rs) mod 32 = 0)%nat as ->
    by (rewrite Nat.mul_comm; apply Nat.Div0.mod_mul).
  assert ((32 * List.length rs) / 32 = List.length rs)%nat as ->
    by (rewrite Nat.mul_comm; apply Nat.div_mul; lia).
  rewrite <- (app_nil_r (flat_map encode_record rs)).
  rewrite records_of_encoded by (now apply flatten_ok).
  cbn [Nat.eqb obind fst self].
  eexists. split; [reflexivity|].
  match goal with
  | |- context [fold_left add_record rs ?o] =>
      destruct (fold_add_record_header rs o) as (E1 & E2 & E3 & E4 & _);
      pose proof (fold_add_record_bcd rs o) as E5
  end.
  rewrite E1, E2, E3, E4, E5.
  cbn [text version bclen umilen bcd set_text set_header set_format
       set_n_entries set_in_file_path BUSFIle_init].
  repeat split.
  - intros b Hb. unfold text_bytes_of. now rewrite Hb.
  - now apply fold_append_rebuild.
Qed.

Lemma write_read_roundtrip_witness :
  exists c',
    read_back example_container example_path no_files = Return c' /\
    version c' = 1 /\ bclen c' = 16 /\ umilen c' = 12 /\
    text c' = PBytes [] /\
    (forall b, text example_container = PBytes b ->
               text c' = text example_container) /\
    bcd c' = [(7, [(1, 2, 3, 4); (8, 8, 8, 8)]); (5, [(9, 2, 1, 0)])].
Proof.
  apply (write_read_roundtrip example_container example_path no_files);
    reflexivity.
Defined.

(** C1, as stated, fails. A barcode whose sequence is empty writes no
    block, so it is missing from the map read back; and the text of a
    freshly constructed container, the empty [str], is read back as the
    empty [bytes], an object of another type that is not equal to it. *)
Lemma write_read_loses_empty_sequence :
  header_ok example_empty_sequence = true /\
  bcd example_empty_sequence = [(5, [])] /\
  match read_back example_empty_sequence example_path no_files with
  | Return c' => bcd c' = [] /\ bcd c' <> bcd example_empty_sequence
  | Raise _ => False
  end /\
  match read_back BUSFIle_init example_path no_files with
  | Return c' => text c' = PBytes [] /\ text c' <> text BUSFIle_init
  | Raise _ => False
  end.
Proof.
  split; [reflexivity|]. split; [reflexivity|].
  split; vm_compute; split; (reflexivity || discriminate).
Qed.

(** ** Two small files *)

(** A header with version 1, barcode length 16, UMI length 12 and no
    text, followed by no record. *)
Example read_header_only :
  fst (read example_path
         (fs_put no_files example_path
            (magic_BUS ++ le_bytes 4 1 ++ le_bytes 4 16 ++ le_bytes 4 12
               ++ le_bytes 4 0))) =
  Return (mkBUSFIle (PBytes []) [] 1 16 12 0 1 (PStr str_BUS)
            (Some example_path) None).
Proof. reflexivity. Qed.

(** The same header followed by the record
    [(barcode=5, umi=9, ec=2, count=1, flag=0, padding=0)]. *)
Example read_one_record :
  fst (read example_path
         (fs_put no_files example_path
            (magic_BUS ++ le_bytes 4 1 ++ le_bytes 4 16 ++ le_bytes 4 12
               ++ le_bytes 4 0 ++ encode_record (5, (9, 2, 1, 0))))) =
  Return (mkBUSFIle (PBytes []) [(5, [(9, 2, 1, 0)])] 1 16 12 0 2
            (PStr str_BUS) (Some example_path) None).
Proof. reflexivity. Qed.

(** * Further properties *)

(** ** Decoding *)

Lemma symbols_nth x n : forall i d,
  (i < n)%nat ->
  nth i (symbols x n) d = symbol_of (pair_at x (Z.of_nat (n - 1 - i))).
Proof.
  induction n as [|n IH]; intros i d H; [lia|].
  cbn [symbols]. destruct i as [|i]; cbn [nth].
  - do 2 f_equal. lia.
  - rewrite IH by lia. do 3 f_equal. lia.
Qed.

(** X1: character number [i] of [binaryToString(x, n)] is the symbol of
    the base-4 digit of weight [4^(n-1-i)] of [x]: A, C, G, T for 0, 1, 2,
    3, the most significant digit first. *)
Theorem binaryToString_nth (x n : Z) (i : nat) :
  Z.of_nat i < n ->
  nth i (binaryToString x n) "N"%char =
  symbol_of ((x / 4 ^ (n - 1 - Z.of_nat i)) mod 4).
Proof.
  intros H. rewrite binaryToString_symbols, symbols_nth by lia.
  rewrite pair_at_mod4 by lia. do 4 f_equal. lia.
Qed.

Lemma binaryToString_nth_witness :
  nth 1 (binaryToString 27 4) "N"%char = symbol_of ((27 / 4 ^ (4 - 1 - 1)) mod 4).
Proof. apply (binaryToString_nth 27 4 1). cbn. lia. Defined.

Lemma symbols_leading_A x n k :
  0 <= x < 4 ^ Z.of_nat n ->
  symbols x (k + n) = repeat "A"%char k ++ symbols x n.
Proof.
  intros Hx. induction k as [|k IH]; [reflexivity|].
  cbn [Nat.add symbols repeat app]. rewrite IH. f_equal.
  rewrite pair_at_mod4 by lia.
  assert (4 ^ Z.of_nat n <= 4 ^ Z.of_nat (k + n))
    by (apply Z.pow_le_mono_r; lia).
  rewrite Z.div_small by lia. reflexivity.
Qed.

(** X2: a longer length only adds leading [A]s. For [0 <= x < 4^n] and
    [k >= 0], [binaryToString(x, n + k)] is [k] times [A] followed by
    [binaryToString(x, n)]. *)
Theorem binaryToString_leading_A (x n k : Z) :
  0 <= n -> 0 <= k -> 0 <= x < 4 ^ n ->
  binaryToString x (n + k) =
  repeat "A"%char (Z.to_nat k) ++ binaryToString x n.
Proof.
  intros Hn Hk Hx. rewrite !binaryToString_symbols.
  replace (Z.to_nat (n + k)) with (Z.to_nat k + Z.to_nat n)%nat by lia.
  apply symbols_leading_A. now rewrite Z2Nat.id.
Qed.

Lemma binaryToString_leading_A_witness :
  binaryToString 6 (2 + 3) = repeat "A"%char (Z.to_nat 3) ++ binaryToString 6 2.
Proof. apply (binaryToString_leading_A 6 2 3); cbn; lia. Defined.

(** X3: two integers decode to the same string of length [n >= 0]
    exactly when they agree modulo [4^n]. *)
Theorem binaryToString_eq_iff (x y n : Z) :
  0 <= n ->
  (binaryToString x n = binaryToString y n <-> x mod 4 ^ n = y mod 4 ^ n).
Proof.
  intros Hn. rewrite !binaryToString_symbols.
  rewrite <- (Z2Nat.id n) at 3 4 by assumption. split; intros H.
  - now rewrite <- !value_of_symbols, H.
  - rewrite <- (symbols_mod x (Z.to_nat n)), <- (symbols_mod y (Z.to_nat n))
      by lia.
    now rewrite H.
Qed.

Lemma binaryToString_eq_iff_witness :
  binaryToString 5 2 = binaryToString 21 2 <-> 5 mod 4 ^ 2 = 21 mod 4 ^ 2.
Proof. apply (binaryToString_eq_iff 5 21 2). lia. Defined.

(** ** Encoding *)

Lemma stringToBinary_bounded (s : str) (n : Z) :
  s <> [] -> forallb is_acgt s = true -> 1 <= n ->
  exists v, stringToBinary s n = Return v /\
            0 <= v < 4 ^ Z.min n (Z.of_nat (List.length s)).
Proof.
  intros Hne Hs Hn. exists (value_of (slice_to s n)).
  assert (List.length (slice_to s n) =
          Z.to_nat (Z.min n (Z.of_nat (List.length s)))) as HL
    by (rewrite slice_to_firstn, length_firstn by lia; lia).
  split.
  - apply stringToBinary_value.
    + intros E. rewrite E in HL. destruct s; [congruence|]. cbn in HL. lia.
    + rewrite slice_to_firstn by lia. now apply forallb_firstn.
  - pose proof (value_of_range (slice_to s n)) as H.
    rewrite HL, Z2Nat.id in H by lia. exact H.
Qed.

(** X4: the code of [n >= 1] symbols fits [2n] bits. For a non-empty
    string [s] over {A,C,G,T} and [n >= 1], [stringToBinary(s, n)] returns
    an integer [v] with [0 <= v < 4^min(n, len(s))]. *)
Theorem stringToBinary_range (s : str) (n : Z) :
  s <> [] -> forallb is_acgt s = true -> 1 <= n ->
  exists v, stringToBinary s n = Return v /\
            0 <= v < 4 ^ Z.min n (Z.of_nat (List.length s)).
Proof. apply stringToBinary_bounded. Qed.

Lemma stringToBinary_range_witness :
  exists v, stringToBinary (list_ascii_of_string "GATTACA") 4 = Return v /\
            0 <= v < 4 ^ Z.min 4 (Z.of_nat (List.length (list_ascii_of_string "GATTACA"))).
Proof.
  apply (stringToBinary_range (list_ascii_of_string "GATTACA") 4);
    [discriminate | reflexivity | lia].
Defined.

(** X5: with the default [length = 32], a non-empty string over
    {A,C,G,T} of any length is encoded from its first 32 symbols only,
    and the result fits the unsigned 64-bit barcode and UMI fields of a
    record. *)
Theorem stringToBinary_default_u64 (s : str) :
  s <> [] -> forallb is_acgt s = true ->
  exists v, stringToBinary_default s = Return v /\
            stringToBinary_default (firstn 32 s) = Return v /\
            u64 v = true.
Proof.
  intros Hne Hs. unfold stringToBinary_default.
  destruct (stringToBinary_bounded s 32 Hne Hs) as (v & Hv & Hr); [lia|].
  exists v. split; [exact Hv|]. split.
  - rewrite <- Hv. unfold stringToBinary.
    rewrite !slice_to_firstn by lia. change (Z.to_nat 32) with 32%nat.
    now rewrite firstn_firstn.
  - unfold u64. apply andb_true_iff. split; [lia|].
    apply Z.ltb_lt. destruct Hr as [_ Hr].
    eapply Z.lt_le_trans; [exact Hr|].
    change (2 ^ 64) with (4 ^ 32). apply Z.pow_le_mono_r; lia.
Qed.

Lemma stringToBinary_default_u64_witness :
  exists v, stringToBinary_default (list_ascii_of_string "GATTACA") = Return v /\
            stringToBinary_default (firstn 32 (list_ascii_of_string "GATTACA")) = Return v /\
            u64 v = true.
Proof.
  apply (stringToBinary_default_u64 (list_ascii_of_string "GATTACA"));
    [discriminate | reflexivity].
Defined.

Lemma value_of_app s t :
  value_of (s ++ t) = value_of s * 4 ^ Z.of_nat (List.length t) + value_of t.
Proof.
  induction s as [|c s IH]; [cbn [app value_of]; lia|].
  cbn [app value_of]. rewrite IH, length_app, Nat2Z.inj_add.
  rewrite Z.pow_add_r by lia. ring.
Qed.

Lemma stringToBinary_whole s :
  s <> [] -> forallb is_acgt s = true ->
  stringToBinary s (Z.of_nat (List.length s)) = Return (value_of s).
Proof.
  intros Hne Hs. rewrite stringToBinary_value; rewrite slice_to_all by lia;
    auto.
Qed.

(** X6: encoding a concatenation. For non-empty strings [s] and [t] over
    {A,C,G,T}, each encoded at its own length,
    [stringToBinary(s + t) == stringToBinary(s) * 4^len(t) + stringToBinary(t)]. *)
Theorem stringToBinary_app (s t : str) :
  s <> [] -> t <> [] ->
  forallb is_acgt s = true -> forallb is_acgt t = true ->
  exists vs vt,
    stringToBinary s (Z.of_nat (List.length s)) = Return vs /\
    stringToBinary t (Z.of_nat (List.length t)) = Return vt /\
    stringToBinary (s ++ t) (Z.of_nat (List.length (s ++ t))) =
      Return (vs * 4 ^ Z.of_nat (List.length t) + vt).
Proof.
  intros Hs0 Ht0 Hs Ht. exists (value_of s), (value_of t).
  assert (s ++ t <> []) as Hst0 by (destruct s; [congruence | discriminate]).
  assert (forallb is_acgt (s ++ t) = true) as Hst
    by (rewrite forallb_app; now rewrite Hs, Ht).
  rewrite !stringToBinary_whole by assumption.
  now rewrite value_of_app.
Qed.

Lemma stringToBinary_app_witness :
  exists vs vt,
    stringToBinary (list_ascii_of_string "GA")
      (Z.of_nat (List.length (list_ascii_of_string "GA"))) = Return vs /\
    stringToBinary (list_ascii_of_string "TTC")
      (Z.of_nat (List.length (list_ascii_of_string "TTC"))) = Return vt /\
    stringToBinary (list_ascii_of_string "GA" ++ list_ascii_of_string "TTC")
      (Z.of_nat (List.length (list_ascii_of_string "GA" ++ list_ascii_of_string "TTC"))) =
      Return (vs * 4 ^ Z.of_nat (List.length (list_ascii_of_string "TTC")) + vt).
Proof.
  apply (stringToBinary_app (list_ascii_of_string "GA")
           (list_ascii_of_string "TTC"));
    (discriminate || reflexivity).
Defined.

Lemma value_of_repeat_A k : value_of (repeat "A"%char k) = 0.
Proof.
  induction k as [|k IH]; [reflexivity|].
  cbn [repeat value_of]. rewrite IH. reflexivity.
Qed.

Lemma forallb_repeat_A k : forallb is_acgt (repeat "A"%char k) = true.
Proof. induction k as [|k IH]; [reflexivity | cbn; exact IH]. Qed.

(** X7: leading [A]s do not change the code, which is why decoding needs
    the length. For a non-empty string [s] over {A,C,G,T}, [k] times [A]
    followed by [s] is encoded to the same integer as [s]. *)
Theorem stringToBinary_leading_A (s : str) (k : nat) :
  s <> [] -> forallb is_acgt s = true ->
  stringToBinary (repeat "A"%char k ++ s)
    (Z.of_nat (List.length (repeat "A"%char k ++ s))) =
  stringToBinary s (Z.of_nat (List.length s)).
Proof.
  intros Hne Hs.
  assert (repeat "A"%char k ++ s <> []) as Hks0
    by (intros E; apply app_eq_nil in E as [_ E]; congruence).
  assert (forallb is_acgt (repeat "A"%char k ++ s) = true) as Hks
    by (rewrite forallb_app; now rewrite forallb_repeat_A, Hs).
  rewrite !stringToBinary_whole by assumption.
  now rewrite value_of_app, value_of_repeat_A.
Qed.

Lemma stringToBinary_leading_A_witness :
  stringToBinary (repeat "A"%char 3 ++ list_ascii_of_string "CG")
    (Z.of_nat (List.length (repeat "A"%char 3 ++ list_ascii_of_string "CG"))) =
  stringToBinary (list_ascii_of_string "CG")
    (Z.of_nat (List.length (list_ascii_of_string "CG"))).
Proof.
  apply (stringToBinary_leading_A (list_ascii_of_string "CG") 3);
    [discriminate | reflexivity].
Defined.

(** X8: at a fixed length the encoding is injective. Two strings over
    {A,C,G,T} of the same length [n >= 1] with the same code are the same
    string. *)
Theorem stringToBinary_injective (s t : str) (n : Z) :
  1 <= n ->
  Z.of_nat (List.length s) = n -> Z.of_nat (List.length t) = n ->
  forallb is_acgt s = true -> forallb is_acgt t = true ->
  stringToBinary s n = stringToBinary t n ->
  s = t.
Proof.
  intros Hn Hls Hlt Hs Ht H.
  assert (s <> []) by (destruct s; [cbn in Hls; lia | discriminate]).
  assert (t <> []) by (destruct t; [cbn in Hlt; lia | discriminate]).
  rewrite <- Hls in H at 1. rewrite <- Hlt in H.
  rewrite !stringToBinary_whole in H by assumption. injection H as H.
  rewrite <- (symbols_value_of s Hs), <- (symbols_value_of t Ht), H.
  f_equal. lia.
Qed.

Lemma stringToBinary_injective_witness :
  list_ascii_of_string "ACGT" = list_ascii_of_string "ACGT".
Proof.
  apply (stringToBinary_injective (list_ascii_of_string "ACGT")
           (list_ascii_of_string "ACGT") 4);
    (reflexivity || lia).
Defined.

(** *** Input outside the alphabet *)

Lemma replace_absent old new t :
  forallb (fun c => negb (Ascii.eqb c old)) t = true -> replace old new t = t.
Proof.
  induction t as [|c t IH]; [reflexivity|].
  cbn [forallb replace]. rewrite andb_true_iff, negb_true_iff.
  intros [-> H]. now rewrite IH.
Qed.

Lemma is_bit_not_symbol c old :
  is_bit c = true -> is_acgt old = true -> negb (Ascii.eqb c old) = true.
Proof.
  intros Hc Ho. apply is_bit_cases in Hc. apply is_acgt_cases in Ho.
  destruct Hc as [->| ->]; destruct Ho as [->|[->|[->| ->]]]; reflexivity.
Qed.

(** X9: the alphabet is not checked. A non-empty string of the binary
    digits [0] and [1], no longer than [n], is not rejected:
    [stringToBinary] returns its base-2 value. *)
Theorem stringToBinary_binary_digits (l : str) (n : Z) :
  l <> [] -> forallb is_bit l = true -> Z.of_nat (List.length l) <= n ->
  stringToBinary l n = Return (bin_value l).
Proof.
  intros Hne Hl Hn. unfold stringToBinary. rewrite slice_to_all by assumption.
  assert (forall old, is_acgt old = true ->
            forallb (fun c => negb (Ascii.eqb c old)) l = true) as Habs.
  { intros old Ho. apply forallb_forall. intros c Hc.
    apply is_bit_not_symbol; [|assumption].
    rewrite forallb_forall in Hl. now apply Hl. }
  rewrite (replace_absent "A" _ l), (replace_absent "C" _ l),
    (replace_absent "G" _ l), (replace_absent "T" _ l)
    by (apply Habs; reflexivity).
  now rewrite int2_bits.
Qed.

Lemma stringToBinary_binary_digits_witness :
  stringToBinary (list_ascii_of_string "0110") 32 =
  Return (bin_value (list_ascii_of_string "0110")).
Proof.
  apply (stringToBinary_binary_digits (list_ascii_of_string "0110") 32);
    [discriminate | reflexivity | cbn; lia].
Defined.

Lemma is_foreign_inv c :
  is_foreign c = true ->
  is_acgt c = false /\ is_space c = false /\ is_bit c = false /\
  Ascii.eqb c "_" = false /\ Ascii.eqb c "+" = false /\
  Ascii.eqb c "-" = false /\ Ascii.eqb c "b" = false /\
  Ascii.eqb c "B" = false.
Proof.
  unfold is_foreign. rewrite negb_true_iff, !orb_false_iff. tauto.
Qed.

Lemma replace_keeps_foreign old new t :
  is_acgt old = true ->
  existsb is_foreign t = true ->
  existsb is_foreign (replace old new t) = true.
Proof.
  intros Ho. induction t as [|c t IH]; [discriminate|].
  cbn [existsb replace]. rewrite orb_true_iff. intros [Hc|Ht].
  - destruct (Ascii.eqb_spec c old) as [->|_].
    + apply is_foreign_inv in Hc as [Hc _]. congruence.
    + cbn [existsb]. now rewrite Hc.
  - destruct (Ascii.eqb c old).
    + rewrite existsb_app, (IH Ht). apply orb_true_r.
    + cbn [existsb]. rewrite (IH Ht). apply orb_true_r.
Qed.

Lemma lstrip_keeps_foreign s :
  existsb is_foreign s = true -> existsb is_foreign (lstrip s) = true.
Proof.
  induction s as [|c s IH]; [discriminate|].
  intros H. cbn [lstrip]. destruct (is_space c) eqn:Ec; [|exact H].
  cbn [existsb] in H. apply orb_true_iff in H as [Hc|Hs]; [|now apply IH].
  apply is_foreign_inv in Hc as (_ & Hc & _). congruence.
Qed.

Lemma foreign_lstrip_nonempty s :
  existsb is_foreign s = true -> lstrip s <> [].
Proof.
  intros H E. apply lstrip_keeps_foreign in H. rewrite E in H. discriminate.
Qed.

Lemma existsb_foreign_tail c s :
  existsb is_foreign (c :: s) = true -> is_foreign c = false ->
  existsb is_foreign s = true.
Proof. cbn [existsb]. intros H Hc. rewrite Hc in H. exact H. Qed.

Lemma split_sign_keeps_foreign s :
  existsb is_foreign s = true ->
  existsb is_foreign (snd (split_sign s)) = true.
Proof.
  intros H. destruct s as [|c s]; [discriminate|].
  destruct (Ascii.eqb_spec c "+") as [->|Hp].
  { apply (existsb_foreign_tail _ _ H). reflexivity. }
  destruct (Ascii.eqb_spec c "-") as [->|Hm].
  { apply (existsb_foreign_tail _ _ H). reflexivity. }
  assert (split_sign (c :: s) = (1, c :: s)) as ->; [|exact H].
  destruct c as [[] [] [] [] [] [] [] []]; (reflexivity || congruence).
Qed.

Lemma skip_prefix_keeps_foreign s :
  existsb is_foreign s = true ->
  existsb is_foreign (skip_prefix s) = true.
Proof.
  intros H.
  assert (skip_prefix s = s \/
          exists c1 c2 s', s = c1 :: c2 :: s' /\
            is_foreign c1 = false /\ is_foreign c2 = false /\
            (skip_prefix s = s' \/
             exists s'', s' = "_"%char :: s'' /\ skip_prefix s = s''))
    as [->|(c1 & c2 & s' & -> & H1 & H2 & Hk)]; [|exact H|].
  { destruct s as [|c1 [|c2 s']]; try (left; reflexivity).
    - left. destruct c1 as [[] [] [] [] [] [] [] []]; reflexivity.
    - destruct (Ascii.eqb_spec c1 "0") as [->|H0].
      + destruct (Ascii.eqb_spec c2 "b") as [->|Hb].
        * right. exists "0"%char, "b"%char, s'. repeat split.
          destruct s' as [|c3 s'']; [left; reflexivity|].
          destruct (Ascii.eqb_spec c3 "_") as [->|Hu].
          -- right. exists s''. split; reflexivity.
          -- left. destruct c3 as [[] [] [] [] [] [] [] []];
               (reflexivity || congruence).
        * destruct (Ascii.eqb_spec c2 "B") as [->|HB].
          -- right. exists "0"%char, "B"%char, s'. repeat split.
             destruct s' as [|c3 s'']; [left; reflexivity|].
             destruct (Ascii.eqb_spec c3 "_") as [->|Hu].
             ++ right. exists s''. split; reflexivity.
             ++ left. destruct c3 as [[] [] [] [] [] [] [] []];
                  (reflexivity || congruence).
          -- left. destruct c2 as [[] [] [] [] [] [] [] []];
               (reflexivity || congruence).
      + left. destruct c1 as [[] [] [] [] [] [] [] []];
          (reflexivity || congruence). }
  apply existsb_foreign_tail in H; [|assumption].
  apply existsb_foreign_tail in H; [|assumption].
  destruct Hk as [->|(s'' & -> & ->)]; [exact H|].
  apply (existsb_foreign_tail _ _ H). reflexivity.
Qed.

Lemma scan_digits_foreign s : forall acc us nd,
  existsb is_foreign s = true ->
  match scan_digits acc us nd s with
  | None => True
  | Some (_, _, rest) => lstrip rest <> []
  end.
Proof.
  induction s as [|c s IH]; intros acc us nd H; [discriminate|].
  cbn [scan_digits].
  destruct (Ascii.eqb_spec c "0") as [->|H0].
  { apply IH. apply (existsb_foreign_tail _ _ H). reflexivity. }
  destruct (Ascii.eqb_spec c "1") as [->|H1].
  { apply IH. apply (existsb_foreign_tail _ _ H). reflexivity. }
  destruct (Ascii.eqb_spec c "_") as [->|Hu].
  { destruct us; [exact I|].
    apply IH. apply (existsb_foreign_tail _ _ H). reflexivity. }
  destruct us; [exact I|]. now apply foreign_lstrip_nonempty.
Qed.

Lemma int2_foreign s :
  existsb is_foreign s = true -> int2 s = Raise ValueError.
Proof.
  intros H. apply lstrip_keeps_foreign, split_sign_keeps_foreign in H.
  unfold int2. destruct (split_sign (lstrip s)) as [sign s1]. cbn [snd] in H.
  apply skip_prefix_keeps_foreign in H.
  pose proof (scan_digits_foreign (skip_prefix s1) 0 false 0%nat H) as Hscan.
  destruct (skip_prefix s1) as [|c s2]; [discriminate|].
  destruct c as [[] [] [] [] [] [] [] []]; try reflexivity;
    cbv beta iota;
    match goal with
    | |- context [scan_digits 0 false 0 ?l] =>
        destruct (scan_digits 0 false 0 l) as [[[v nd] rest]|];
        [destruct nd; [reflexivity|];
         destruct (lstrip rest); [congruence | reflexivity]
        | reflexivity]
    end.
Qed.

(** X10: a character that is neither a symbol nor part of the grammar of
    [int(s, 2)] (so any letter other than A, C, G, T, b and B, such as the
    [N] of an unknown base or a lower-case symbol) within the first
    [length] characters makes [stringToBinary] raise [ValueError]. *)
Theorem stringToBinary_foreign_symbol (s : str) (n : Z) :
  existsb is_foreign (slice_to s n) = true ->
  stringToBinary s n = Raise ValueError.
Proof.
  intros H. unfold stringToBinary.
  rewrite int2_foreign; [reflexivity|].
  repeat (apply replace_keeps_foreign; [reflexivity|]). exact H.
Qed.

Lemma stringToBinary_foreign_symbol_witness :
  stringToBinary (list_ascii_of_string "ACNT") 4 = Raise ValueError.
Proof.
  apply (stringToBinary_foreign_symbol (list_ascii_of_string "ACNT") 4).
  reflexivity.
Defined.

(** ** Reading a well-formed file *)

Lemma add_record_eq o r :
  add_record o r =
  mkBUSFIle (text o) (dict_append (bcd o) r) (version o) (bclen o) (umilen o)
    (textlen o) (n_entries o + 1) (format o) (in_file_path o)
    (out_file_path o).
Proof.
  unfold add_record, bcd_append, dict_append. cbn [bcd set_n_entries].
  destruct (dict_get (bcd o) (fst r)); reflexivity.
Qed.

Lemma fold_add_record_eq rs : forall o,
  fold_left add_record rs o =
  mkBUSFIle (text o) (fold_left dict_append rs (bcd o)) (version o) (bclen o)
    (umilen o) (textlen o) (n_entries o + Z.of_nat (List.length rs))
    (format o) (in_file_path o) (out_file_path o).
Proof.
  induction rs as [|r rs IH]; intros o.
  - cbn [fold_left List.length Z.of_nat]. rewrite Z.add_0_r. now destruct o.
  - cbn [fold_left]. rewrite IH, add_record_eq.
    cbn [text bcd version bclen umilen textlen n_entries format in_file_path
         out_file_path List.length].
    f_equal. lia.
Qed.

(** [read] on a file made of the header of [c] and the blocks of the
    records [rs]. *)
Lemma read_written c rs path fsys :
  header_ok c = true ->
  forallb record_ok rs = true ->
  fsys path = Some (header_bytes c ++ flat_map encode_record rs) ->
  read path fsys =
  (Return
     (mkBUSFIle (PBytes (text_bytes_of c)) (fold_left dict_append rs [])
        (version c) (bclen c) (umilen c)
        (Z.of_nat (List.length (text_bytes_of c)))
        (Z.of_nat (List.length rs) + 1) (PStr str_BUS) (Some path) None),
   if version c =? BUSFORMAT_VERSION then [] else [warn_version_differs]).
Proof.
  intros Hh Hrs Hf. unfold read. rewrite Hf.
  unfold bind at 1. rewrite parseHeader_written by assumption.
  unfold bind, gets. cbn [self format set_text set_header set_format].
  change (pyval_eqb (PStr str_BUS) (PStr str_BUS)) with true. cbv iota.
  rewrite parseBUS_spec. cbn [self inf emitted].
  rewrite flat_map_encode_length.
  assert ((32 * List.length rs) mod 32 = 0)%nat as ->
    by (rewrite Nat.mul_comm; apply Nat.Div0.mod_mul).
  assert ((32 * List.length rs) / 32 = List.length rs)%nat as ->
    by (rewrite Nat.mul_comm; apply Nat.div_mul; lia).
  rewrite <- (app_nil_r (flat_map encode_record rs)).
  rewrite records_of_encoded by assumption.
  cbn [Nat.eqb obind fst self]. rewrite fold_add_record_eq.
  cbn [text version bclen umilen bcd textlen n_entries format in_file_path
       out_file_path set_text set_header set_format set_n_entries
       set_in_file_path BUSFIle_init app].
  do 2 f_equal. f_equal. lia.
Qed.

(** ** What [write] does in every case *)

Lemma pack_uint_8 x :
  pack_uint 8 x = if u64 x then Return (le_bytes 8 x) else Raise struct_error.
Proof. reflexivity. Qed.

Lemma pack_uint_4 x :
  pack_uint 4 x = if u32 x then Return (le_bytes 4 x) else Raise struct_error.
Proof. reflexivity. Qed.

Lemma writeBUS_block_run bc tup w :
  writeBUS_block bc tup w =
  if record_ok (bc, tup) then (Return tt, w ++ encode_record (bc, tup))
  else (Raise struct_error, w).
Proof.
  destruct tup as [[[t0 t1] t2] t3].
  unfold writeBUS_block, bind, lift, record_ok, entry_ok. cbn [fst snd].
  cbn [struct_pack fmt_size]. rewrite !pack_uint_8, !pack_uint_4.
  change (u32 0) with true. cbv iota.
  destruct (u64 bc), (u64 t0), (u32 t1), (u32 t2), (u32 t3);
    cbn [obind andb]; reflexivity.
Qed.

Lemma packable_prefix_app a b :
  packable_prefix (a ++ b) =
  if forallb record_ok a then a ++ packable_prefix b else packable_prefix a.
Proof.
  induction a as [|r a IH]; [reflexivity|].
  cbn [app packable_prefix forallb]. destruct (record_ok r); [|reflexivity].
  rewrite IH. cbn [andb]. now destruct (forallb record_ok a).
Qed.

Lemma packable_prefix_all rs :
  forallb record_ok rs = true -> packable_prefix rs = rs.
Proof.
  induction rs as [|r rs IH]; [reflexivity|].
  cbn [forallb packable_prefix]. rewrite andb_true_iff. intros [-> H].
  now rewrite IH.
Qed.

Lemma packable_prefix_ok rs : forallb record_ok (packable_prefix rs) = true.
Proof.
  induction rs as [|r rs IH]; [reflexivity|].
  cbn [packable_prefix]. destruct (record_ok r) eqn:E; [|reflexivity].
  cbn [forallb]. now rewrite E, IH.
Qed.

Lemma for_each_blocks_run bc value : forall w,
  for_each value (writeBUS_block bc) w =
  (if forallb record_ok (map (fun t => (bc, t)) value)
   then Return tt else Raise struct_error,
   w ++ flat_map encode_record
          (packable_prefix (map (fun t => (bc, t)) value))).
Proof.
  induction value as [|t value IH]; intros w.
  - cbn. now rewrite app_nil_r.
  - cbn [for_each map forallb packable_prefix]. unfold bind.
    rewrite writeBUS_block_run. destruct (record_ok (bc, t)).
    + rewrite IH. cbn [andb flat_map]. now rewrite <- app_assoc.
    + cbn [andb flat_map]. now rewrite app_nil_r.
Qed.

Lemma for_each_items_run d : forall w,
  for_each d (fun item => let '(bc, value) := item in
                          for_each value (writeBUS_block bc)) w =
  (if forallb record_ok (flatten d) then Return tt else Raise struct_error,
   w ++ flat_map encode_record (packable_prefix (flatten d))).
Proof.
  induction d as [|[bc value] d IH]; intros w.
  - cbn. now rewrite app_nil_r.
  - cbn [for_each]. unfold bind. rewrite for_each_blocks_run.
    rewrite flatten_cons. unfold record in *.
    rewrite forallb_app, packable_prefix_app. unfold record in *.
    destruct (@forallb (Z * entry) record_ok (map (fun t => (bc, t)) value))
      eqn:E.
    + pose proof (packable_prefix_all _ E) as HP. unfold record in *.
      rewrite HP, IH. cbn [andb]. unfold record in *.
      now rewrite flat_map_app, <- app_assoc.
    + reflexivity.
Qed.

Lemma writeHeader_run o w :
  writeHeader o w =
  if header_ok o then (Return tt, w ++ header_bytes o)
  else (Raise struct_error, w ++ magic_BUS).
Proof.
  unfold writeHeader, bind, lift, outf_write, modify, header_ok, header_bytes.
  fold (text_bytes_of o). cbn [struct_pack fmt_size]. rewrite !pack_uint_4.
  destruct (u32 (version o)), (u32 (bclen o)), (u32 (umilen o)),
    (u32 (Z.of_nat (List.length (text_bytes_of o))));
    cbn [obind andb]; try reflexivity.
  rewrite <- !app_assoc. cbn [app]. reflexivity.
Qed.

Lemma write_run o path formating fsys :
  write o path formating fsys =
  if header_ok o then
    if str_eqb formating str_BUS then
      (if forallb record_ok (flatten (bcd o))
       then Return tt else Raise struct_error,
       (set_out_file_path path o,
        fs_put fsys path
          (header_bytes o
             ++ flat_map encode_record (packable_prefix (flatten (bcd o))))))
    else
      (Return tt, (set_out_file_path path o, fs_put fsys path (header_bytes o)))
  else
    (Raise struct_error,
     (set_out_file_path path o, fs_put fsys path magic_BUS)).
Proof.
  unfold write, bind. rewrite writeHeader_run.
  change (header_ok (set_out_file_path path o)) with (header_ok o).
  change (header_bytes (set_out_file_path path o)) with (header_bytes o).
  destruct (header_ok o); [|reflexivity].
  destruct (str_eqb formating str_BUS); [|reflexivity].
  unfold writeBUS. cbn [truthy negb bcd set_out_file_path].
  rewrite for_each_items_run. reflexivity.
Qed.

Lemma header_bytes_length c :
  List.length (header_bytes c) = (20 + List.length (text_bytes_of c))%nat.
Proof.
  unfold header_bytes. rewrite !length_app, !le_bytes_length. reflexivity.
Qed.

(** X11: a header field that does not fit its unsigned 32-bit slot
    ([version], [bclen], [umilen] or the byte length of the text) makes
    [write] raise [struct.error] after the file has been created and the
    magic written: [out_file_path] is set, the file holds the 4 magic
    bytes and nothing else, and reading it back raises [struct.error]. *)
Theorem write_header_out_of_range (c : BUSFIle) (path formating : str) (fsys : fs) :
  header_ok c = false ->
  write c path formating fsys =
    (Raise struct_error,
     (set_out_file_path path c, fs_put fsys path magic_BUS)) /\
  fst (read path (snd (snd (write c path formating fsys)))) =
    Raise struct_error.
Proof.
  intros H. rewrite write_run, H. split; [reflexivity|].
  cbn [snd]. unfold read. rewrite fs_put_same. reflexivity.
Qed.

Lemma write_header_out_of_range_witness :
  write (set_header (2 ^ 32) 16 12 0 example_container) example_path str_BUS
    no_files =
    (Raise struct_error,
     (set_out_file_path example_path
        (set_header (2 ^ 32) 16 12 0 example_container),
      fs_put no_files example_path magic_BUS)) /\
  fst (read example_path
         (snd (snd (write (set_header (2 ^ 32) 16 12 0 example_container)
                      example_path str_BUS no_files)))) =
    Raise struct_error.
Proof.
  apply (write_header_out_of_range
           (set_header (2 ^ 32) 16 12 0 example_container)
           example_path str_BUS no_files).
  reflexivity.
Defined.

(** X12: a barcode or tuple field that does not fit its slot makes
    [write] raise [struct.error] at the first such record, in the order
    the map is visited; the file then holds the header and the blocks of
    the records before it, and it is a well-formed BUS file: reading it
    back returns those records, grouped. *)
Theorem write_record_out_of_range (c : BUSFIle) (path : str) (fsys : fs) :
  header_ok c = true ->
  forallb record_ok (flatten (bcd c)) = false ->
  fst (write c path str_BUS fsys) = Raise struct_error /\
  snd (snd (write c path str_BUS fsys)) path =
    Some (header_bytes c
            ++ flat_map encode_record (packable_prefix (flatten (bcd c)))) /\
  exists c',
    fst (read path (snd (snd (write c path str_BUS fsys)))) = Return c' /\
    bcd c' = fold_left dict_append (packable_prefix (flatten (bcd c))) [].
Proof.
  intros Hh Hr. rewrite write_run, Hh, str_eqb_refl. unfold record in *.
  rewrite Hr. cbn [fst snd]. split; [reflexivity|].
  split; [apply fs_put_same|].
  eexists. split.
  - rewrite (read_written c (packable_prefix (flatten (bcd c))));
      [reflexivity | assumption | apply packable_prefix_ok | apply fs_put_same].
  - reflexivity.
Qed.

Lemma write_record_out_of_range_witness :
  fst (write (set_bcd [(7, [(1, 2, 3, 4); (8, -1, 8, 8)]); (5, [(9, 2, 1, 0)])]
                example_header) example_path str_BUS no_files) =
    Raise struct_error /\
  snd (snd (write (set_bcd [(7, [(1, 2, 3, 4); (8, -1, 8, 8)]); (5, [(9, 2, 1, 0)])]
                     example_header) example_path str_BUS no_files))
    example_path =
    Some (header_bytes example_header ++ encode_record (7, (1, 2, 3, 4))).
Proof.
  destruct (write_record_out_of_range
              (set_bcd [(7, [(1, 2, 3, 4); (8, -1, 8, 8)]); (5, [(9, 2, 1, 0)])]
                 example_header) example_path no_files)
    as (H1 & H2 & _); [reflexivity | reflexivity |].
  split; [exact H1|]. rewrite H2. reflexivity.
Defined.

(** X13: with a [formating] other than ['BUS'], [write] writes the header
    and no record at all, whatever the record map holds; reading the
    file back gives an empty record map. *)
Theorem write_other_formating (c : BUSFIle) (path formating : str) (fsys : fs) :
  header_ok c = true ->
  str_eqb formating str_BUS = false ->
  write c path formating fsys =
    (Return tt, (set_out_file_path path c, fs_put fsys path (header_bytes c)))
  /\
  exists c',
    fst (read path (snd (snd (write c path formating fsys)))) = Return c' /\
    bcd c' = [] /\ n_entries c' = 1.
Proof.
  intros Hh Hf. rewrite write_run, Hh, Hf. split; [reflexivity|].
  cbn [snd]. eexists. split.
  - rewrite (read_written c []);
      [reflexivity | assumption | reflexivity |].
    rewrite fs_put_same. cbn [flat_map]. now rewrite app_nil_r.
  - split; reflexivity.
Qed.

Lemma write_other_formating_witness :
  write example_container example_path (list_ascii_of_string "txt") no_files =
    (Return tt,
     (set_out_file_path example_path example_container,
      fs_put no_files example_path (header_bytes example_container)))
  /\
  exists c',
    fst (read example_path
           (snd (snd (write example_container example_path
                        (list_ascii_of_string "txt") no_files)))) = Return c' /\
    bcd c' = [] /\ n_entries c' = 1.
Proof.
  apply (write_other_formating example_container example_path
           (list_ascii_of_string "txt") no_files);
    reflexivity.
Defined.

Lemma flatten_length d :
  List.length (flatten d) =
  list_sum (map (fun item => List.length (snd item)) d).
Proof.
  induction d as [|[bc v] d IH]; [reflexivity|].
  rewrite flatten_cons. unfold record in *.
  rewrite length_app, length_map, IH. reflexivity.
Qed.

(** X14: the size of a file written without error is 20 bytes of fixed
    header, the bytes of the text, and 32 bytes for every tuple of the
    record map. *)
Theorem write_file_size (c : BUSFIle) (path : str) (fsys : fs) :
  fst (write c path str_BUS fsys) = Return tt ->
  exists content,
    snd (snd (write c path str_BUS fsys)) path = Some content /\
    List.length content =
    (20 + List.length (text_bytes_of c)
     + 32 * list_sum (map (fun item => List.length (snd item)) (bcd c)))%nat.
Proof.
  rewrite write_run, str_eqb_refl.
  destruct (header_ok c); [|discriminate].
  destruct (forallb record_ok (flatten (bcd c))) eqn:E; [|discriminate].
  intros _. cbn [snd]. eexists. split; [apply fs_put_same|].
  rewrite packable_prefix_all by assumption.
  rewrite length_app, header_bytes_length, flat_map_encode_length.
  now rewrite flatten_length.
Qed.

Lemma write_file_size_witness :
  exists content,
    snd (snd (write example_container example_path str_BUS no_files))
      example_path = Some content /\
    List.length content =
    (20 + List.length (text_bytes_of example_container)
     + 32 * list_sum (map (fun item => List.length (snd item))
                        (bcd example_container)))%nat.
Proof.
  apply (write_file_size example_container example_path no_files).
  reflexivity.
Defined.

(** ** What [read] does on any file *)

Lemma Z_of_byte_range c : 0 <= Z_of_byte c < 256.
Proof.
  unfold Z_of_byte. pose proof (Byte.to_N_bounded c). lia.
Qed.

Lemma le_value_range b : 0 <= le_value b < 2 ^ (8 * Z.of_nat (List.length b)).
Proof.
  induction b as [|c b IH]; [cbn; lia|].
  cbn [le_value List.length].
  replace (8 * Z.of_nat (S (List.length b)))
    with (8 + 8 * Z.of_nat (List.length b)) by lia.
  rewrite Z.pow_add_r by lia. change (2 ^ 8) with 256.
  pose proof (Z_of_byte_range c). nia.
Qed.

Lemma le_value_firstn_range n b :
  0 <= le_value (firstn n b) < 2 ^ (8 * Z.of_nat n).
Proof.
  pose proof (le_value_range (firstn n b)) as H.
  pose proof (firstn_le_length n b) as HL. split; [lia|].
  eapply Z.lt_le_trans; [apply H|]. apply Z.pow_le_mono_r; lia.
Qed.

Lemma le_value_u32 b : u32 (le_value (firstn 4 b)) = true.
Proof.
  pose proof (le_value_firstn_range 4 b) as H.
  change (2 ^ (8 * Z.of_nat 4)) with (2 ^ 32) in H.
  unfold u32. apply andb_true_iff. split; lia.
Qed.

Lemma le_value_u64 b : u64 (le_value (firstn 8 b)) = true.
Proof.
  pose proof (le_value_firstn_range 8 b) as H.
  change (2 ^ (8 * Z.of_nat 8)) with (2 ^ 64) in H.
  unfold u64. apply andb_true_iff. split; lia.
Qed.

(** Whatever the block, the record decoded from it fits the slots. *)
Lemma decode_block_ok b : record_ok (decode_block b) = true.
Proof.
  unfold decode_block, record_ok, entry_ok. cbn [fst snd].
  now rewrite !le_value_u64, !le_value_u32.
Qed.

Lemma records_of_ok k : forall s, forallb record_ok (records_of k s) = true.
Proof.
  induction k as [|k IH]; intros s; [reflexivity|].
  cbn [records_of forallb]. now rewrite decode_block_ok, IH.
Qed.

Lemma dict_append_cons k0 v0 d r :
  dict_append ((k0, v0) :: d) r =
  if k0 =? fst r then (k0, v0 ++ [snd r]) :: d
  else (k0, v0) :: dict_append d r.
Proof.
  unfold dict_append. cbn [dict_get dict_set].
  destruct (k0 =? fst r); [reflexivity|].
  destruct (dict_get d (fst r)); reflexivity.
Qed.

Lemma dict_append_keys d r :
  map fst (dict_append d r) =
  if existsb (Z.eqb (fst r)) (map fst d) then map fst d
  else map fst d ++ [fst r].
Proof.
  induction d as [|[k0 v0] d IH]; [reflexivity|].
  rewrite dict_append_cons. cbn [map fst existsb].
  rewrite (Z.eqb_sym (fst r) k0).
  destruct (k0 =? fst r); cbn [orb map fst]; [reflexivity|].
  rewrite IH. now destruct (existsb (Z.eqb (fst r)) (map fst d)).
Qed.

Lemma existsb_eqb_In k l : existsb (Z.eqb k) l = true <-> In k l.
Proof.
  rewrite existsb_exists. split.
  - intros (x & Hx & E). apply Z.eqb_eq in E. now subst.
  - intros H. exists k. split; [assumption | apply Z.eqb_refl].
Qed.

Lemma NoDup_keys_distinct d : NoDup (map fst d) -> keys_distinct d = true.
Proof.
  induction d as [|[k v] d IH]; [reflexivity|].
  cbn [map fst keys_distinct]. intros H. inversion H as [|? ? Hk Hd]; subst.
  rewrite (IH Hd), andb_true_r, negb_true_iff.
  destruct (existsb (Z.eqb k) (map fst d)) eqn:E; [|reflexivity].
  apply existsb_eqb_In in E. contradiction.
Qed.

Lemma dict_append_NoDup d r :
  NoDup (map fst d) -> NoDup (map fst (dict_append d r)).
Proof.
  intros H. rewrite dict_append_keys.
  destruct (existsb (Z.eqb (fst r)) (map fst d)) eqn:E; [assumption|].
  apply NoDup_app; [assumption | repeat constructor; intros [] |].
  intros x Hx [<-|[]].
  apply existsb_eqb_In in Hx. congruence.
Qed.

Lemma dict_append_items_ok d r :
  forallb item_ok d = true -> record_ok r = true ->
  forallb item_ok (dict_append d r) = true.
Proof.
  unfold record_ok. rewrite andb_true_iff. intros Hd [Hk Ht].
  induction d as [|[k0 v0] d IH].
  - unfold dict_append. cbn. unfold item_ok. cbn [fst snd forallb].
    now rewrite Hk, Ht.
  - cbn [forallb] in Hd. apply andb_true_iff in Hd as [H0 Hd].
    rewrite dict_append_cons. destruct (k0 =? fst r).
    + cbn [forallb]. rewrite Hd, andb_true_r.
      apply item_ok_inv in H0 as (Hne & Hk0 & Hv0).
      unfold item_ok. cbn [fst snd].
      destruct (v0 ++ [snd r]) eqn:E; [now destruct v0|].
      rewrite <- E, forallb_app, Hk0, Hv0. cbn [forallb]. now rewrite Ht.
    + cbn [forallb]. now rewrite H0, IH.
Qed.

Lemma dict_append_flatten_length d r :
  List.length (flatten (dict_append d r)) = S (List.length (flatten d)).
Proof.
  induction d as [|[k0 v0] d IH]; [reflexivity|].
  rewrite dict_append_cons. destruct (k0 =? fst r).
  - rewrite !flatten_cons. unfold record in *.
    rewrite !length_app, !length_map, length_app. cbn [List.length]. lia.
  - rewrite !flatten_cons. unfold record in *.
    rewrite !length_app, IH. lia.
Qed.

(** The map built from records that fit their slots is well formed, and
    it holds as many tuples as there were records. *)
Lemma fold_append_ok rs : forall d,
  bcd_ok d = true -> forallb record_ok rs = true ->
  bcd_ok (fold_left dict_append rs d) = true /\
  List.length (flatten (fold_left dict_append rs d)) =
  (List.length (flatten d) + List.length rs)%nat.
Proof.
  induction rs as [|r rs IH]; intros d Hd Hrs.
  - cbn [fold_left List.length]. split; [assumption | lia].
  - cbn [forallb] in Hrs. apply andb_true_iff in Hrs as [Hr Hrs].
    cbn [fold_left List.length].
    assert (bcd_ok (dict_append d r) = true) as Hd'.
    { unfold bcd_ok in *. apply andb_true_iff in Hd as [Hk Hi].
      apply andb_true_iff. split.
      - apply NoDup_keys_distinct, dict_append_NoDup.
        now apply keys_distinct_NoDup.
      - now apply dict_append_items_ok. }
    destruct (IH _ Hd' Hrs) as [H1 H2]. split; [assumption|].
    rewrite H2, dict_append_flatten_length. lia.
Qed.

(** A file shorter than the magic. *)
Lemma parseHeader_no_magic o content ev :
  (List.length content < 4)%nat ->
  parseHeader (mkReader o content ev) =
  (Raise struct_error, mkReader o [] ev).
Proof.
  intros H. unfold parseHeader, bind, inf_read, lift, struct_unpack_s.
  cbn [self inf emitted]. change (Z.to_nat 4) with 4%nat.
  rewrite firstn_all2, skipn_all2 by lia.
  destruct (Z.eqb_spec (Z.of_nat (List.length content)) 4); [lia | reflexivity].
Qed.

(** The magic of a BUS file, then fewer than the 16 bytes of the four
    fields. *)
Lemma parseHeader_no_fields o rest ev :
  (List.length rest < 16)%nat ->
  parseHeader (mkReader o (magic_BUS ++ rest) ev) =
  (Raise struct_error, mkReader (set_format (PStr str_BUS) o) [] ev).
Proof.
  intros H. unfold parseHeader, bind, inf_read, lift, on_self, modify.
  change (Z.to_nat 4) with 4%nat. change (Z.to_nat 16) with 16%nat.
  cbn [self inf emitted].
  rewrite (firstn_app_exact magic_BUS), (skipn_app_exact magic_BUS)
    by reflexivity.
  change (struct_unpack_s 4 magic_BUS) with (Return magic_BUS).
  cbv beta iota.
  change (bytes_eqb magic_BUS magic_BUS) with true.
  cbv beta iota. cbn [self inf emitted].
  rewrite firstn_all2, skipn_all2 by lia.
  unfold struct_unpack.
  change (calcsize [fmt_I; fmt_I; fmt_I; fmt_I]) with 16%nat.
  destruct (Nat.eqb_spec (List.length rest) 16); [lia | reflexivity].
Qed.

(** The magic of a BUS file, the 16 bytes [h] of the four fields, and
    the rest of the file. *)
Lemma parseHeader_parts o h rest ev :
  List.length h = 16%nat ->
  parseHeader (mkReader o (magic_BUS ++ h ++ rest) ev) =
  (if (Z.to_nat (le_value (firstn 4 (skipn 12 h))) <=? List.length rest)%nat
   then Return tt else Raise struct_error,
   mkReader
     ((if (Z.to_nat (le_value (firstn 4 (skipn 12 h))) <=? List.length rest)%nat
       then set_text
              (PBytes (firstn (Z.to_nat (le_value (firstn 4 (skipn 12 h))))
                         rest))
       else fun o' => o')
        (set_header (le_value (firstn 4 h)) (le_value (firstn 4 (skipn 4 h)))
           (le_value (firstn 4 (skipn 8 h)))
           (le_value (firstn 4 (skipn 12 h)))
           (set_format (PStr str_BUS) o)))
     (skipn (Z.to_nat (le_value (firstn 4 (skipn 12 h)))) rest)
     (ev ++ if le_value (firstn 4 h) =? BUSFORMAT_VERSION then []
            else [warn_version_differs])).
Proof.
  intros HL.
  pose proof (le_value_firstn_range 4 (skipn 12 h)) as [Htl _].
  unfold parseHeader, bind, inf_read, lift, on_self, modify, gets, emit.
  change (Z.to_nat 4) with 4%nat. change (Z.to_nat 16) with 16%nat.
  cbn [self inf emitted].
  rewrite (firstn_app_exact magic_BUS), (skipn_app_exact magic_BUS)
    by reflexivity.
  change (struct_unpack_s 4 magic_BUS) with (Return magic_BUS).
  cbv beta iota.
  change (bytes_eqb magic_BUS magic_BUS) with true.
  cbv beta iota. cbn [self inf emitted].
  rewrite firstn_app_exact, skipn_app_exact by assumption.
  unfold struct_unpack. rewrite HL.
  change (calcsize [fmt_I; fmt_I; fmt_I; fmt_I]) with 16%nat.
  cbn [Nat.eqb unpack_fields fmt_size]. rewrite !skipn_skipn.
  cbn [Nat.add]. cbn [self inf emitted version textlen set_header set_format].
  set (tl := le_value (firstn 4 (skipn 12 h))) in *.
  unfold struct_unpack_s.
  destruct (Nat.leb_spec (Z.to_nat tl) (List.length rest)) as [Hle|Hgt].
  - destruct (le_value (firstn 4 h) =? BUSFORMAT_VERSION);
      cbn [negb modify ret self inf emitted textlen set_header];
      rewrite firstn_length_le by assumption;
      rewrite Z2Nat.id by assumption; rewrite Z.eqb_refl;
      [rewrite app_nil_r|]; reflexivity.
  - destruct (le_value (firstn 4 h) =? BUSFORMAT_VERSION);
      cbn [negb modify ret self inf emitted textlen set_header];
      rewrite firstn_all2 by lia;
      (destruct (Z.eqb_spec (Z.of_nat (List.length rest)) tl); [lia|]);
      [rewrite app_nil_r|]; reflexivity.
Qed.

Lemma read_by_header path fsys content :
  fsys path = Some content ->
  read path fsys =
  match parseHeader (mkReader (set_in_file_path path BUSFIle_init) content [])
  with
  | (Raise e, st) => (Raise e, emitted st)
  | (Return _, st) =>
      if pyval_eqb (format (self st)) (PStr str_BUS) then
        match parseBUS st with
        | (Return _, st') => (Return (self st'), emitted st')
        | (Raise e, st') => (Raise e, emitted st')
        end
      else
        (Return (self st),
         emitted st ++ [print_not_implemented (format (self st))])
  end.
Proof.
  intros Hf. unfold read. rewrite Hf. unfold bind at 1.
  destruct (parseHeader _) as [[[]|e] st]; [|reflexivity].
  unfold bind, gets.
  destruct (pyval_eqb (format (self st)) (PStr str_BUS)).
  - destruct (parseBUS st) as [[[]|e] st']; reflexivity.
  - reflexivity.
Qed.

(** The containers [read] can return: the initial instance with the raw
    magic as [format], or the contents of a BUS file. *)
Lemma read_inv path fsys c ev :
  read path fsys = (Return c, ev) ->
  (exists m, c = set_format (PBytes m) (set_in_file_path path BUSFIle_init)) \/
  (exists v b u txt rs,
      u32 v = true /\ u32 b = true /\ u32 u = true /\
      u32 (Z.of_nat (List.length txt)) = true /\
      forallb record_ok rs = true /\
      c = mkBUSFIle (PBytes txt) (fold_left dict_append rs []) v b u
            (Z.of_nat (List.length txt)) (Z.of_nat (List.length rs) + 1)
            (PStr str_BUS) (Some path) None).
Proof.
  intros H. destruct (fsys path) as [content|] eqn:Hf;
    [|unfold read in H; rewrite Hf in H; discriminate].
  rewrite (read_by_header _ _ _ Hf) in H.
  destruct (Nat.ltb_spec (List.length content) 4) as [Hlt|Hge].
  { rewrite parseHeader_no_magic in H by assumption. discriminate. }
  destruct (bytes_eqb (firstn 4 content) magic_BUS) eqn:Em.
  2:{ rewrite parseHeader_unknown in H; [|assumption|].
      - cbn [self format set_format pyval_eqb emitted] in H.
        match type of H with
        | (Return ?x, _) = _ => assert (c = x) as -> by congruence
        end.
        left. eexists. reflexivity.
      - intros E. apply bytes_eqb_eq in E. congruence. }
  apply bytes_eqb_eq in Em.
  rewrite <- (firstn_skipn 4 content), Em in H.
  destruct (Nat.ltb_spec (List.length (skipn 4 content)) 16) as [Hlt|Hge16].
  { rewrite parseHeader_no_fields in H by assumption. discriminate. }
  rewrite <- (firstn_skipn 16 (skipn 4 content)) in H.
  set (h := firstn 16 (skipn 4 content)) in *.
  set (rest := skipn 16 (skipn 4 content)) in *.
  assert (List.length h = 16%nat) as HL
    by (apply firstn_length_le; assumption).
  rewrite (parseHeader_parts _ h rest [] HL) in H.
  set (tl := le_value (firstn 4 (skipn 12 h))) in *.
  pose proof (le_value_firstn_range 4 (skipn 12 h)) as Htl. fold tl in Htl.
  change (2 ^ (8 * Z.of_nat 4)) with (2 ^ 32) in Htl.
  destruct (Nat.leb_spec (Z.to_nat tl) (List.length rest)) as [Hle|Hgt];
    [|discriminate].
  cbn [self format set_text set_header set_format] in H.
  change (pyval_eqb (PStr str_BUS) (PStr str_BUS)) with true in H.
  cbv iota in H. rewrite parseBUS_spec in H. cbn [self inf emitted] in H.
  set (body := skipn (Z.to_nat tl) rest) in *.
  destruct (Nat.eqb (List.length body mod 32) 0); [|discriminate].
  match type of H with
  | (Return ?x, _) = _ => assert (c = x) as -> by congruence
  end.
  clear H. right.
  exists (le_value (firstn 4 h)), (le_value (firstn 4 (skipn 4 h))),
    (le_value (firstn 4 (skipn 8 h))), (firstn (Z.to_nat tl) rest),
    (records_of (List.length body / 32) body).
  assert (Z.of_nat (List.length (firstn (Z.to_nat tl) rest)) = tl) as Etl
    by (rewrite firstn_length_le by assumption; lia).
  rewrite Etl. repeat split; try apply le_value_u32.
  - apply records_of_ok.
  - rewrite fold_add_record_eq, records_of_length.
    cbn [text version bclen umilen bcd textlen n_entries format in_file_path
         out_file_path set_text set_header set_format set_n_entries
         set_in_file_path BUSFIle_init].
    f_equal. lia.
Qed.

(** X15: the header round trip. After [writeHeader] has written the
    header of [c] (fields within their slots), [parseHeader] on those
    bytes, whatever follows them, sets [format] to ['BUS'], recovers
    [version], [bclen], [umilen], sets [textlen] to the byte length of
    the text and [text] to its bytes, stops exactly at the end of the
    text, and warns if and only if [version] is not 1. *)
Theorem parseHeader_writeHeader (c o : BUSFIle) (body : bytes) (ev : list event) :
  header_ok c = true ->
  parseHeader (mkReader o (snd (writeHeader c []) ++ body) ev) =
  (Return tt,
   mkReader
     (set_text (PBytes (text_bytes_of c))
        (set_header (version c) (bclen c) (umilen c)
           (Z.of_nat (List.length (text_bytes_of c)))
           (set_format (PStr str_BUS) o)))
     body
     (ev ++ if version c =? 1 then [] else [warn_version_differs])).
Proof.
  intros H. rewrite writeHeader_run, H. cbn [snd app].
  now apply parseHeader_written.
Qed.

Lemma parseHeader_writeHeader_witness :
  parseHeader
    (mkReader BUSFIle_init
       (snd (writeHeader (set_header 2 16 12 0 example_header) []) ++ [x07])
       []) =
  (Return tt,
   mkReader
     (set_text (PBytes [])
        (set_header 2 16 12 0 (set_format (PStr str_BUS) BUSFIle_init)))
     [x07] [warn_version_differs]).
Proof.
  apply (parseHeader_writeHeader (set_header 2 16 12 0 example_header)
           BUSFIle_init [x07] []).
  reflexivity.
Defined.

(** X16: a file cut inside its header makes [read] raise
    [struct.error]: a file of fewer than 4 bytes, a BUS file with fewer
    than 16 bytes after the magic, and a BUS file whose text is shorter
    than the text length its header declares. *)
Theorem read_truncated_header (path : str) (fsys : fs) (content : bytes) :
  fsys path = Some content ->
  ((List.length content < 4)%nat ->
   fst (read path fsys) = Raise struct_error) /\
  (forall rest,
      content = magic_BUS ++ rest -> (List.length rest < 16)%nat ->
      fst (read path fsys) = Raise struct_error) /\
  (forall h rest,
      content = magic_BUS ++ h ++ rest -> List.length h = 16%nat ->
      Z.of_nat (List.length rest) < le_value (firstn 4 (skipn 12 h)) ->
      fst (read path fsys) = Raise struct_error).
Proof.
  intros Hf. rewrite (read_by_header _ _ _ Hf). repeat split.
  - intros H. now rewrite parseHeader_no_magic.
  - intros rest -> H. now rewrite parseHeader_no_fields.
  - intros h rest -> HL H. rewrite parseHeader_parts by assumption.
    destruct (Nat.leb_spec (Z.to_nat (le_value (firstn 4 (skipn 12 h))))
                (List.length rest)); [lia | reflexivity].
Qed.

Lemma read_truncated_header_witness :
  fst (read example_path (fs_put no_files example_path [x42; x55])) =
    Raise struct_error /\
  fst (read example_path
         (fs_put no_files example_path (magic_BUS ++ [x01; x00; x00; x00]))) =
    Raise struct_error /\
  fst (read example_path
         (fs_put no_files example_path
            (magic_BUS
               ++ (le_bytes 4 1 ++ le_bytes 4 16 ++ le_bytes 4 12 ++ le_bytes 4 5)
               ++ [x41; x42]))) =
    Raise struct_error.
Proof.
  split; [|split].
  - apply (read_truncated_header example_path
             (fs_put no_files example_path [x42; x55]) [x42; x55]);
      [reflexivity | cbn; lia].
  - apply (proj1 (proj2 (read_truncated_header example_path
             (fs_put no_files example_path (magic_BUS ++ [x01; x00; x00; x00]))
             (magic_BUS ++ [x01; x00; x00; x00]) eq_refl))
             [x01; x00; x00; x00]);
      [reflexivity | cbn; lia].
  - apply (proj2 (proj2 (read_truncated_header example_path
             (fs_put no_files example_path
                (magic_BUS
                   ++ (le_bytes 4 1 ++ le_bytes 4 16 ++ le_bytes 4 12
                         ++ le_bytes 4 5)
                   ++ [x41; x42]))
             (magic_BUS
                ++ (le_bytes 4 1 ++ le_bytes 4 16 ++ le_bytes 4 12
                      ++ le_bytes 4 5)
                ++ [x41; x42]) eq_refl))
             (le_bytes 4 1 ++ le_bytes 4 16 ++ le_bytes 4 12 ++ le_bytes 4 5)
             [x41; x42]);
      [reflexivity | reflexivity | vm_compute; reflexivity].
Defined.

Lemma read_result_ok path fsys c ev :
  read path fsys = (Return c, ev) ->
  header_ok c = true /\ bcd_ok (bcd c) = true.
Proof.
  intros H. apply read_inv in H as [(m & ->)|H]; [split; reflexivity|].
  destruct H as (v & b & u & txt & rs & Hv & Hb & Hu & Ht & Hrs & ->).
  split.
  - unfold header_ok, text_bytes_of. cbn [version bclen umilen text].
    now rewrite Hv, Hb, Hu, Ht.
  - cbn [bcd]. now apply (fold_append_ok rs []).
Qed.

(** X17: whatever the file, a container that [read] returns is well
    formed: its header fields fit their slots, no barcode occurs twice
    or has an empty sequence, every tuple field fits its slot; so
    [write] accepts it without raising. *)
Theorem read_result_writable (path : str) (fsys : fs) (c : BUSFIle)
    (ev : list event) (path' : str) (fsys' : fs) :
  read path fsys = (Return c, ev) ->
  header_ok c = true /\ bcd_ok (bcd c) = true /\
  fst (write c path' str_BUS fsys') = Return tt.
Proof.
  intros H. apply read_result_ok in H as [Hh Hd]. repeat split; try assumption.
  rewrite write_run, Hh, str_eqb_refl.
  unfold bcd_ok in Hd. apply andb_true_iff in Hd as [_ Hd].
  apply flatten_ok in Hd. unfold record in *. now rewrite Hd.
Qed.

Lemma read_result_writable_witness :
  header_ok example_read = true /\ bcd_ok (bcd example_read) = true /\
  fst (write example_read example_path str_BUS no_files) = Return tt.
Proof.
  apply (read_result_writable example_path
           (fs_put no_files example_path example_file)
           example_read [] example_path no_files).
  reflexivity.
Defined.

(** X18: reading is a fixed point of writing and reading back. Whatever
    the file, if [read] returns a container of format ['BUS'], then
    writing that container and reading the new file returns the very
    same container, up to [in_file_path], which names the new file. *)
Theorem read_write_read (path : str) (fsys : fs) (c : BUSFIle)
    (ev : list event) (path' : str) (fsys' : fs) :
  read path fsys = (Return c, ev) ->
  format c = PStr str_BUS ->
  read_back c path' fsys' = Return (set_in_file_path path' c).
Proof.
  intros H Hfmt. pose proof (read_result_ok _ _ _ _ H) as [Hh Hd].
  apply read_inv in H as [(m & ->)|H]; [discriminate|].
  destruct H as (v & b & u & txt & rs & Hv & Hb & Hu & Ht & Hrs & ->).
  set (c := mkBUSFIle _ _ _ _ _ _ _ _ _ _) in *.
  assert (Hd' := Hd). unfold bcd_ok in Hd'.
  apply andb_true_iff in Hd' as [_ Hitems].
  pose proof (flatten_ok _ Hitems) as Hflat.
  unfold read_back. rewrite write_run, Hh, str_eqb_refl.
  unfold record in *. rewrite Hflat. cbn [fst snd obind].
  rewrite packable_prefix_all by assumption.
  rewrite (read_written c (flatten (bcd c)));
    [|assumption|assumption|apply fs_put_same].
  cbn [fst]. rewrite fold_append_rebuild by assumption.
  destruct (fold_append_ok rs [] eq_refl Hrs) as [_ HL].
  subst c. cbn [bcd text_bytes_of text version bclen umilen set_in_file_path
                textlen n_entries format in_file_path out_file_path] in *.
  unfold record in *. rewrite HL. reflexivity.
Qed.

Lemma read_write_read_witness :
  read_back example_read (list_ascii_of_string "copy.bus") no_files =
  Return (set_in_file_path (list_ascii_of_string "copy.bus") example_read).
Proof.
  apply (read_write_read example_path
           (fs_put no_files example_path example_file)
           example_read [] (list_ascii_of_string "copy.bus") no_files);
    reflexivity.
Defined.

(** ** More on the body parser *)

(** X19: what is done before the exception stays. On a body of [k]
    whole blocks followed by a partial block, [parseBUS] raises
    [struct.error] only after the [k] whole records have been added to
    the map in stream order, [n_entries] has grown by [k + 1], and the
    stream has been read to its end. *)
Theorem parseBUS_truncated_state (st : reader) (bc : Z) :
  (List.length (inf st) mod 32 <> 0)%nat ->
  fst (parseBUS st) = Raise struct_error /\
  inf (snd (parseBUS st)) = [] /\
  n_entries (self (snd (parseBUS st))) =
    n_entries (self st) + Z.of_nat (List.length (inf st) / 32) + 1 /\
  dict_get (bcd (self (snd (parseBUS st)))) bc =
  match dict_get (bcd (self st)) bc,
        tuples_of bc (records_of (List.length (inf st) / 32) (inf st)) with
  | Some l, ts => Some (l ++ ts)
  | None, [] => None
  | None, ts => Some ts
  end.
Proof.
  intros H. rewrite parseBUS_spec. cbn [fst snd self inf].
  apply Nat.eqb_neq in H. rewrite H. repeat split.
  - rewrite fold_add_record_n_entries, records_of_length.
    cbn [n_entries set_n_entries]. lia.
  - rewrite fold_add_record_bcd. apply dict_get_fold_append.
Qed.

Lemma parseBUS_truncated_state_witness :
  fst (parseBUS (mkReader BUSFIle_init (example_body ++ [x01; x02]) [])) =
    Raise struct_error /\
  dict_get
    (bcd (self (snd (parseBUS
                       (mkReader BUSFIle_init (example_body ++ [x01; x02]) [])))))
    7 = Some [(1, 2, 3, 4); (8, 8, 8, 8)].
Proof.
  destruct (parseBUS_truncated_state
              (mkReader BUSFIle_init (example_body ++ [x01; x02]) []) 7)
    as (H1 & _ & _ & H4); [cbn; lia|].
  split; [exact H1 | rewrite H4; reflexivity].
Defined.

Lemma records_of_app k1 : forall s1 s2 k2,
  List.length s1 = (32 * k1)%nat ->
  records_of (k1 + k2) (s1 ++ s2) = records_of k1 s1 ++ records_of k2 s2.
Proof.
  induction k1 as [|k1 IH]; intros s1 s2 k2 H.
  - destruct s1; [reflexivity | discriminate].
  - cbn [Nat.add records_of app].
    rewrite firstn_app, skipn_app.
    replace (32 - List.length s1)%nat with 0%nat by lia.
    change (firstn 0 s2) with (@nil byte). change (skipn 0 s2) with s2.
    rewrite app_nil_r.
    rewrite IH by (rewrite length_skipn; lia). reflexivity.
Qed.

(** X20: bodies compose. If [s1] is made of whole blocks, parsing
    [s1 ++ s2] in one go leaves the same record map, and ends the same
    way, as parsing [s1] and then [s2] into the same instance; the second
    way counts one more read in [n_entries]. *)
Theorem parseBUS_app (o : BUSFIle) (s1 s2 : bytes) (ev : list event) :
  (List.length s1 mod 32 = 0)%nat ->
  fst (parseBUS (mkReader o s1 ev)) = Return tt /\
  fst (parseBUS (mkReader (self (snd (parseBUS (mkReader o s1 ev)))) s2 ev)) =
    fst (parseBUS (mkReader o (s1 ++ s2) ev)) /\
  bcd (self (snd (parseBUS
        (mkReader (self (snd (parseBUS (mkReader o s1 ev)))) s2 ev)))) =
    bcd (self (snd (parseBUS (mkReader o (s1 ++ s2) ev)))) /\
  n_entries (self (snd (parseBUS
        (mkReader (self (snd (parseBUS (mkReader o s1 ev)))) s2 ev)))) =
    n_entries (self (snd (parseBUS (mkReader o (s1 ++ s2) ev)))) + 1.
Proof.
  intros H. rewrite !parseBUS_spec. cbn [fst snd self inf emitted].
  rewrite H. cbn [Nat.eqb].
  pose proof (Nat.div_mod_eq (List.length s1) 32) as Hdm.
  rewrite H, Nat.add_0_r in Hdm.
  set (k1 := (List.length s1 / 32)%nat) in *.
  assert (List.length (s1 ++ s2) = (List.length s2 + k1 * 32)%nat) as HL
    by (rewrite length_app; lia).
  rewrite HL, Nat.Div0.mod_add, Nat.div_add by lia.
  rewrite (Nat.add_comm (List.length s2 / 32) k1).
  rewrite records_of_app by assumption.
  rewrite fold_left_app.
  repeat (rewrite fold_add_record_eq;
          cbn [text bcd version bclen umilen textlen n_entries format
               in_file_path out_file_path set_n_entries]).
  rewrite !records_of_length. repeat split. lia.
Qed.

Lemma parseBUS_app_witness :
  fst (parseBUS (mkReader BUSFIle_init example_body [])) = Return tt /\
  bcd (self (snd (parseBUS
        (mkReader (self (snd (parseBUS (mkReader BUSFIle_init example_body []))))
           (encode_record (5, (6, 6, 6, 6))) [])))) =
    bcd (self (snd (parseBUS
          (mkReader BUSFIle_init
             (example_body ++ encode_record (5, (6, 6, 6, 6))) [])))).
Proof.
  destruct (parseBUS_app BUSFIle_init example_body
              (encode_record (5, (6, 6, 6, 6))) [])
    as (H1 & _ & H3 & _); [reflexivity|].
  split; [exact H1 | exact H3].
Defined.

Lemma decode_block_padding p pad1 pad2 :
  List.length p = 28%nat ->
  decode_block (p ++ pad1) = decode_block (p ++ pad2).
Proof.
  intros H. unfold decode_block.
  rewrite !skipn_app, !firstn_app, !length_skipn, H.
  cbn [Nat.sub firstn skipn]. reflexivity.
Qed.

(** X21: the padding field is ignored on input. Two bodies that differ
    only in the last 4 bytes of their first block are parsed to the same
    result. *)
Theorem parseBUS_padding_ignored (o : BUSFIle) (p pad1 pad2 rest : bytes)
    (ev : list event) :
  List.length p = 28%nat ->
  List.length pad1 = 4%nat -> List.length pad2 = 4%nat ->
  parseBUS (mkReader o (p ++ pad1 ++ rest) ev) =
  parseBUS (mkReader o (p ++ pad2 ++ rest) ev).
Proof.
  intros Hp H1 H2. rewrite !parseBUS_spec. cbn [self inf emitted].
  assert (forall pad, List.length pad = 4%nat ->
            List.length (p ++ pad ++ rest) = (List.length rest + 1 * 32)%nat)
    as HL by (intros pad Hpad; rewrite !length_app; lia).
  rewrite (HL pad1 H1), (HL pad2 H2).
  rewrite Nat.div_add by lia. rewrite (Nat.add_comm _ 1). cbn [Nat.add].
  cbn [records_of]. rewrite !app_assoc.
  rewrite !firstn_app_exact, !skipn_app_exact
    by (rewrite length_app; lia).
  now rewrite (decode_block_padding p pad1 pad2 Hp).
Qed.

Lemma parseBUS_padding_ignored_witness :
  parseBUS (mkReader BUSFIle_init
              (firstn 28 (encode_record (5, (9, 2, 1, 0)))
                 ++ [x00; x00; x00; x00] ++ []) []) =
  parseBUS (mkReader BUSFIle_init
              (firstn 28 (encode_record (5, (9, 2, 1, 0)))
                 ++ [xff; x01; x02; x03] ++ []) []).
Proof.
  apply (parseBUS_padding_ignored BUSFIle_init
           (firstn 28 (encode_record (5, (9, 2, 1, 0))))
           [x00; x00; x00; x00] [xff; x01; x02; x03] [] []);
    reflexivity.
Defined.

Lemma fold_append_keys rs : forall d,
  map fst (fold_left dict_append rs d) = first_seen (map fst d) (map fst rs).
Proof.
  unfold first_seen.
  induction rs as [|r rs IH]; intros d; [reflexivity|].
  cbn [fold_left map]. now rewrite IH, dict_append_keys.
Qed.

(** X22: the barcodes of the map are in the order of their first
    occurrence. After [parseBUS], whether it returns or raises, the keys
    of the map are the keys it had, followed by the new barcodes of the
    whole blocks of the stream, each at its first occurrence. *)
Theorem parseBUS_key_order (st : reader) :
  map fst (bcd (self (snd (parseBUS st)))) =
  first_seen (map fst (bcd (self st)))
    (map fst (records_of (List.length (inf st) / 32) (inf st))).
Proof.
  rewrite parseBUS_spec. cbn [snd self].
  rewrite fold_add_record_bcd. apply fold_append_keys.
Qed.
